(** * Responsive design utilities: a shallow embedding of
      [static/responsive-utils.js] and the properties of its viewport
      tracker, listener registry, adjustment pass, debounce and start-up.

    How the script is modelled:
    - viewport sizes are integers of CSS pixels ([Z]), the device pixel
      ratio is a rational ([Q]), names and style values are [string]s;
    - the document is the list of its elements in document order, written
      to by index; elements are HTML elements, each with a class list and
      an inline style, so a write to one completes; the inline style is a
      record of the properties the script writes;
    - statements are functions from a state to a completion, normal or
      thrown; what can throw are the subscribers of the host page and the
      [resize] of a third-party chart instance, and, in the statements
      about start-up, the steps of a listener taken as parameters;
    - subscribers of the host page act on the page and read the state they
      are passed; only the manager's own handlers write the state;
    - [setTimeout] and [clearTimeout] act on a queue of pending timers with
      a clock in milliseconds, one queue per closure of [debounce];
    - the world keeps a journal of adjustment passes and listener calls,
      which no function reads, to state how often they happen. *)

From Stdlib Require Import ZArith QArith Qround String.
From stdpp Require Import base list strings gmap.

Local Open Scope string_scope.
Local Open Scope list_scope.
Local Open Scope Z_scope.

(** ** 1. Viewport detection and tracking *)

(** The [window], [navigator] and [document] values the script reads. *)
Record NetworkInformation := { effectiveType : option string }.

Record Window := {
  innerWidth : Z;
  innerHeight : Z;
  devicePixelRatio : Q;
  ontouchstart : bool;               (* 'ontouchstart' in window *)
  maxTouchPoints : option Z;         (* navigator.maxTouchPoints *)
  msMaxTouchPoints : option Z;       (* navigator.msMaxTouchPoints *)
  nav_connection : option NetworkInformation;
  nav_mozConnection : option NetworkInformation;
  nav_webkitConnection : option NetworkInformation;
  hidden : bool;                     (* document.hidden *)
  hasIntersectionObserver : bool;    (* 'IntersectionObserver' in window *)
  hasLoadingAttr : bool              (* 'loading' in HTMLImageElement.prototype *)
}.

Record ViewportState := {
  width : Z;
  height : Z;
  isMobile : bool;
  isTablet : bool;
  isDesktop : bool;
  isSmallDesktop : bool;
  isLargeDesktop : bool;
  is4K : bool;
  pixelRatio : Q;
  orientation : string;
  zoomLevel : Z;
  isRetina : bool;
  isTouch : bool;
  connection : string
}.

(** [Math.round]: the nearest integer, halves towards plus infinity. *)
Definition Math_round (x : Q) : Z := Qfloor (x + (1 # 2)).

(** [a || b] on numbers: [a] unless it is zero. *)
Definition num_or (a b : Q) : Q := if Qeq_bool a 0 then b else a.

Definition orientationOf (w h : Z) : string :=
  if h >? w then "portrait" else "landscape".

Definition zoomOf (dpr : Q) : Z := Math_round (dpr * 100).

(** The object literal [viewportState] of [ResponsiveManager]. *)
Definition initialViewportState (win : Window) : ViewportState := {|
  width := innerWidth win;
  height := innerHeight win;
  isMobile := innerWidth win <? 576;
  isTablet := (innerWidth win >=? 576) && (innerWidth win <? 992);
  isDesktop := innerWidth win >=? 992;
  isSmallDesktop := (innerWidth win >=? 992) && (innerWidth win <? 1200);
  isLargeDesktop := innerWidth win >=? 1200;
  is4K := innerWidth win >=? 1920;
  pixelRatio := num_or (devicePixelRatio win) 1;
  orientation := orientationOf (innerWidth win) (innerHeight win);
  zoomLevel := zoomOf (devicePixelRatio win);
  isRetina := Qle_bool 2 (devicePixelRatio win);
  isTouch := false;
  connection := "unknown"
|}.

(** The field assignments of [updateViewportState(width, height)]; the call
    of [updateViewportClass] that ends it acts on the document and is
    sequenced in [updateViewportState] below. *)
Definition setViewportSize (w h : Z) (st : ViewportState) : ViewportState := {|
  width := w;
  height := h;
  isMobile := w <? 576;
  isTablet := (w >=? 576) && (w <? 992);
  isDesktop := w >=? 992;
  isSmallDesktop := (w >=? 992) && (w <? 1200);
  isLargeDesktop := w >=? 1200;
  is4K := w >=? 1920;
  pixelRatio := pixelRatio st;
  orientation := orientation st;
  zoomLevel := zoomLevel st;
  isRetina := isRetina st;
  isTouch := isTouch st;
  connection := connection st
|}.

Definition getViewportName (st : ViewportState) : string :=
  if is4K st then "4k"
  else if isLargeDesktop st then "xl"
  else if isSmallDesktop st then "lg"
  else if isDesktop st then "md"
  else if isTablet st then "sm"
  else "xs".

(** The class [updateViewportClass] adds to the document element. *)
Definition viewportClass (st : ViewportState) : string :=
  if is4K st then "viewport-2xl"
  else if isLargeDesktop st then "viewport-xl"
  else if isSmallDesktop st then "viewport-lg"
  else if isDesktop st then "viewport-md"
  else if isTablet st then "viewport-sm"
  else "viewport-xs".

(** The breakpoint ordering xs < sm < md < lg < xl < 4k, as an index. *)
Definition tierIndex (name : string) : nat :=
  if decide (name = "xs") then 0%nat
  else if decide (name = "sm") then 1%nat
  else if decide (name = "md") then 2%nat
  else if decide (name = "lg") then 3%nat
  else if decide (name = "xl") then 4%nat
  else if decide (name = "4k") then 5%nat
  else 0%nat.

Definition viewportNames : list string := ["xs"; "sm"; "md"; "lg"; "xl"; "4k"].

(** The five size categories, read off the breakpoint booleans. *)
Definition categories (st : ViewportState) : list bool :=
  [ isMobile st; isTablet st; isSmallDesktop st;
    isLargeDesktop st && negb (is4K st); is4K st ].

Definition count_true (l : list bool) : nat := length (filter (λ b, b = true) l).

(** The six breakpoint booleans of a state, and what the thresholds 576,
    992, 1200 and 1920 make of a width. *)
Definition breakpointsOfState (st : ViewportState) : list bool :=
  [ isMobile st; isTablet st; isDesktop st; isSmallDesktop st;
    isLargeDesktop st; is4K st ].

Definition breakpointsOfWidth (w : Z) : list bool :=
  [ w <? 576; (576 <=? w) && (w <? 992); 992 <=? w;
    (992 <=? w) && (w <? 1200); 1200 <=? w; 1920 <=? w ].

(** ** 2. The document

    An element carries its tag name, its class list (an ordered set of
    tokens), its other attributes, the index of its parent element and its
    inline style.  A document is the list of its elements in document
    order; index 0 is [document.documentElement]. *)

Inductive StyleProp :=
  | MaxHeight | FontSize | MinHeight | MinWidth | Margin
  | AnimationPlayState | WebkitOverflowScrolling.

Record Style := {
  maxHeight : option string;
  fontSize : option string;
  minHeight : option string;
  minWidth : option string;
  margin : option string;
  animationPlayState : option string;
  webkitOverflowScrolling : option string
}.

Record Element := {
  tagName : string;
  classList : list string;
  attributes : gmap string string;
  parentIndex : option nat;
  style : Style
}.

Abbreviation DOM := (list Element).

(** [el.style.prop = v] *)
Definition setProperty (p : StyleProp) (v : string) (s : Style) : Style := {|
  maxHeight := if p is MaxHeight then Some v else maxHeight s;
  fontSize := if p is FontSize then Some v else fontSize s;
  minHeight := if p is MinHeight then Some v else minHeight s;
  minWidth := if p is MinWidth then Some v else minWidth s;
  margin := if p is Margin then Some v else margin s;
  animationPlayState := if p is AnimationPlayState then Some v else animationPlayState s;
  webkitOverflowScrolling :=
    if p is WebkitOverflowScrolling then Some v else webkitOverflowScrolling s
|}.

Definition setStyle (p : StyleProp) (v : string) (e : Element) : Element := {|
  tagName := tagName e; classList := classList e; attributes := attributes e;
  parentIndex := parentIndex e; style := setProperty p v (style e)
|}.

Definition withClassList (f : list string → list string) (e : Element) : Element := {|
  tagName := tagName e; classList := f (classList e); attributes := attributes e;
  parentIndex := parentIndex e; style := style e
|}.

Definition withAttributes (f : gmap string string → gmap string string)
    (e : Element) : Element := {|
  tagName := tagName e; classList := classList e; attributes := f (attributes e);
  parentIndex := parentIndex e; style := style e
|}.

(** [DOMTokenList]: [add] appends a token that is not there yet, [remove]
    deletes every occurrence, [contains] tests membership. *)
Definition token_add (c : string) (l : list string) : list string :=
  if decide (c ∈ l) then l else l ++ [c].
Definition token_remove (c : string) (l : list string) : list string :=
  filter (λ x, x ≠ c) l.
Definition token_contains (c : string) (l : list string) : bool :=
  bool_decide (c ∈ l).

Definition classList_add (c : string) : Element → Element := withClassList (token_add c).
Definition classList_remove (cs : list string) : Element → Element :=
  withClassList (λ l, foldl (λ l c, token_remove c l) l cs).
Definition setAttribute (a v : string) : Element → Element := withAttributes (insert a v).
Definition removeAttribute (a : string) : Element → Element := withAttributes (delete a).

(** Selectors: a comma-separated list of compound selectors, each a
    conjunction of simple conditions. *)
Inductive Cond :=
  | CTag (t : string)                 (* t            *)
  | CClass (c : string)               (* .c           *)
  | CAttr (a : string)                (* [a]          *)
  | CAttrEq (a v : string)            (* [a="v"]      *)
  | CClassSub (sub : string).         (* [class*="s"] *)

Definition Selector := list (list Cond).

Fixpoint has_substring (sub s : string) : bool :=
  String.prefix sub s ||
  match s with
  | EmptyString => false
  | String _ s' => has_substring sub s'
  end.

Definition matchesCond (e : Element) (c : Cond) : bool :=
  match c with
  | CTag t => bool_decide (tagName e = t)
  | CClass c => token_contains c (classList e)
  | CAttr a => bool_decide (is_Some (attributes e !! a))
  | CAttrEq a v => bool_decide (attributes e !! a = Some v)
  | CClassSub sub => existsb (has_substring sub) (classList e)
  end.

Definition matchesSel (sel : Selector) (e : Element) : bool :=
  existsb (forallb (matchesCond e)) sel.

Fixpoint selectFrom (sel : Selector) (i : nat) (l : list Element) : list nat :=
  match l with
  | [] => []
  | e :: l' =>
      if matchesSel sel e then i :: selectFrom sel (S i) l'
      else selectFrom sel (S i) l'
  end.

(** [document.querySelectorAll(sel)]: the matching elements in document
    order, as indices; [document.querySelector(sel)]: the first of them. *)
Definition querySelectorAll (sel : Selector) (d : DOM) : list nat := selectFrom sel 0 d.
Definition querySelector (sel : Selector) (d : DOM) : option nat :=
  head (querySelectorAll sel d).

(** [el.closest(sel)]: the element itself or its nearest ancestor that
    matches.  A document of [n] elements has no ancestor chain longer than
    [n], which is the fuel. *)
Fixpoint closestFrom (fuel : nat) (sel : Selector) (d : DOM) (i : nat) : option nat :=
  match fuel with
  | O => None
  | S fuel' =>
      match d !! i with
      | None => None
      | Some e =>
          if matchesSel sel e then Some i
          else match parentIndex e with
               | None => None
               | Some p => closestFrom fuel' sel d p
               end
      end
  end.

Definition closest (sel : Selector) (d : DOM) (i : nat) : option nat :=
  closestFrom (length d) sel d i.

(** In document order a parent comes before its children. *)
Definition documentOrder (d : DOM) : Prop :=
  ∀ i e p, d !! i = Some e → parentIndex e = Some p → (p < i)%nat.

(** [nodes.forEach(el => { ...writes to el... })] *)
Definition forEachElement (f : Element → Element) (nodes : list nat) (d : DOM) : DOM :=
  foldl (λ d i, alter f i d) d nodes.

Definition cls (c : string) : Selector := [[CClass c]].

(** ** 3. The adjustment pass *)

Definition adjustNavbarLogo (st : ViewportState) (d : DOM) : DOM :=
  let logo := querySelector (cls "ubc-logo") d in
  let facilitiesLogo := querySelector (cls "ubc-facilities-logo") d in
  let d1 :=
    match logo with
    | Some i =>
        if isMobile st then alter (setStyle MaxHeight "50px") i d
        else if isTablet st then alter (setStyle MaxHeight "70px") i d
        else alter (setStyle MaxHeight "85px") i d
    | None => d
    end in
  match facilitiesLogo with
  | Some j =>
      if isMobile st then alter (setStyle MaxHeight "50px") j d1
      else if isTablet st then alter (setStyle MaxHeight "70px") j d1
      else alter (setStyle MaxHeight "85px") j d1
  | None => d1
  end.

Definition chartSelector : Selector :=
  [[CClass "chart-img"]; [CClass "responsive-iframe"]; [CClass "chart-container"]].

Definition adjustChartSizes (st : ViewportState) (d : DOM) : DOM :=
  let charts := querySelectorAll chartSelector d in
  forEachElement
    (λ chart,
       if isMobile st then setStyle MaxHeight "50vh" chart
       else if isTablet st then setStyle MaxHeight "60vh" chart
       else setStyle MaxHeight "70vh" chart)
    charts d.

(** [a || b] on element references. *)
Definition ref_or (a b : option nat) : option nat :=
  match a with Some _ => a | None => b end.

Definition adjustTableDisplay (st : ViewportState) (d : DOM) : DOM :=
  let tables := querySelectorAll (cls "asset-table") d in
  foldl
    (λ d table,
       let container :=
         ref_or (closest (cls "table-responsive") d table)
                (closest (cls "asset-table-container") d table) in
       match container with
       | Some c =>
           if isMobile st then alter (setStyle FontSize "0.85rem") c d
           else alter (setStyle FontSize "1rem") c d
       | None => d
       end)
    d tables.

Definition handleModalResponsiveness (st : ViewportState) (d : DOM) : DOM :=
  let modals := querySelectorAll (cls "modal-dialog") d in
  forEachElement
    (λ modal,
       if isMobile st
       then setStyle Margin "0.5rem" (classList_add "modal-dialog-scrollable" modal)
       else setStyle Margin "1.75rem auto"
              (classList_remove ["modal-dialog-scrollable"] modal))
    modals d.

(** The four procedures in the order [applyResponsiveAdjustments] calls them. *)
Definition adjustmentPass (st : ViewportState) (d : DOM) : DOM :=
  handleModalResponsiveness st
    (adjustTableDisplay st
       (adjustChartSizes st
          (adjustNavbarLogo st d))).

(** ** 4. Completions

    A JavaScript statement either completes normally or throws; both leave
    a state behind.  [Cmd X] is a statement acting on a state [X]. *)

Definition Exn := string.

Inductive Outcome (X : Type) :=
  | Normal (x : X)
  | Throw (e : Exn) (x : X).
Arguments Normal {X} x.
Arguments Throw {X} e x.

Definition Cmd (X : Type) := X → Outcome X.

Definition lift {X} (f : X → X) : Cmd X := λ x, Normal (f x).

(** [c1; c2] *)
Definition andThen {X} (c1 c2 : Cmd X) : Cmd X :=
  λ x, match c1 x with
       | Normal x' => c2 x'
       | Throw e x' => Throw e x'
       end.

(** [try { c } catch (e) { h e }] *)
Definition try_catch {X} (c : Cmd X) (h : Exn → Cmd X) : Cmd X :=
  λ x, match c x with
       | Normal x' => Normal x'
       | Throw e x' => h e x'
       end.

Declare Scope cmd_scope.
Delimit Scope cmd_scope with cmd.
Notation "c1 ;; c2" := (andThen c1 c2)
  (at level 100, c2 at level 200, right associativity) : cmd_scope.
Local Open Scope cmd_scope.

(** The state a completion leaves, whichever way it ended. *)
Definition settle {X} (o : Outcome X) : X :=
  match o with Normal x => x | Throw _ x => x end.

Definition completes {X} (o : Outcome X) : Prop := ∃ x, o = Normal x.

(** [array.forEach((x, i) => body)], starting at index [i]: a throw in the
    body ends the loop. *)
Fixpoint forEachFrom {A X} (body : nat → A → Cmd X) (i : nat) (l : list A) : Cmd X :=
  match l with
  | [] => Normal
  | a :: l' => body i a ;; forEachFrom body (S i) l'
  end.

(** ** 5. Timers and [debounce]

    [setTimeout] and [clearTimeout] on a queue of pending timers with a
    clock in milliseconds.  The payload of a timer is what its callback
    closes over. *)

Section Timers.
Context {P : Type}.

Record Timer := { tid : nat; due : nat; payload : P }.

Record TimerQueue := { clock : nat; nextId : nat; pending : list Timer }.

Definition setTimeout (p : P) (wait : nat) (q : TimerQueue) : nat * TimerQueue :=
  (nextId q,
   {| clock := clock q;
      nextId := S (nextId q);
      pending := pending q ++ [{| tid := nextId q; due := (clock q + wait)%nat; payload := p |}] |}).

(** [clearTimeout(handle)]; [None] is [undefined], which clears nothing. *)
Definition clearTimeout (handle : option nat) (q : TimerQueue) : TimerQueue :=
  match handle with
  | None => q
  | Some id =>
      {| clock := clock q; nextId := nextId q;
         pending := filter (λ t, tid t ≠ id) (pending q) |}
  end.

(** The timer that runs next: the earliest due, the first set among equals. *)
Fixpoint earliest (l : list Timer) : option Timer :=
  match l with
  | [] => None
  | t :: l' =>
      match earliest l' with
      | Some t' => if (due t' <? due t)%nat then Some t' else Some t
      | None => Some t
      end
  end.

Definition nextDue (limit : nat) (q : TimerQueue) : option Timer :=
  earliest (filter (λ t, (due t ≤ limit)%nat) (pending q)).

(** The queue when timer [t] starts to run: the clock has reached its due
    time and it is no longer pending. *)
Definition expire (t : Timer) (q : TimerQueue) : TimerQueue :=
  {| clock := Nat.max (clock q) (due t); nextId := nextId q;
     pending := filter (λ t', tid t' ≠ tid t) (pending q) |}.

Definition setClock (now : nat) (q : TimerQueue) : TimerQueue :=
  {| clock := now; nextId := nextId q; pending := pending q |}.

(** What [debounce] keeps between calls: its variable [timeout] and the
    timers of the page. *)
Record Closure := { timeout : option nat; queue : TimerQueue }.

Definition newClosure (now : nat) : Closure :=
  {| timeout := None; queue := {| clock := now; nextId := 1; pending := [] |} |}.

(** [executedFunction(...args)]:
    [clearTimeout(timeout); timeout = setTimeout(later, wait)]. *)
Definition executedFunction (wait : nat) (args : P) (c : Closure) : Closure :=
  let q1 := clearTimeout (timeout c) (queue c) in
  let '(id, q2) := setTimeout args wait q1 in
  {| timeout := Some id; queue := q2 |}.

(** The first statement of [later]: [clearTimeout(timeout)]. *)
Definition later_clear (c : Closure) : Closure :=
  {| timeout := timeout c; queue := clearTimeout (timeout c) (queue c) |}.
End Timers.
Arguments Timer : clear implicits.
Arguments TimerQueue : clear implicits.
Arguments Closure : clear implicits.

(** A debounced function together with the state [St] its [func] works on.
    [fired] records when [later] ran and with which arguments. *)
Section Debounce.
Context {A St : Type}.
Variable func : A → St → St.
Variable wait : nat.

Record Debounced := {
  closure : Closure A;
  inner : St;
  fired : list (nat * A)
}.

Definition call (args : A) (m : Debounced) : Debounced :=
  {| closure := executedFunction wait args (closure m);
     inner := inner m; fired := fired m |}.

(** [later] for timer [t]: [clearTimeout(timeout); func(...args)]. *)
Definition later (t : Timer A) (m : Debounced) : Debounced :=
  let c := {| timeout := timeout (closure m); queue := expire t (queue (closure m)) |} in
  {| closure := later_clear c;
     inner := func (payload t) (inner m);
     fired := fired m ++ [(clock (queue c), payload t)] |}.

Fixpoint runDue (fuel limit : nat) (m : Debounced) : Debounced :=
  match fuel with
  | O => m
  | S fuel' =>
      match nextDue limit (queue (closure m)) with
      | None => m
      | Some t => runDue fuel' limit (later t m)
      end
  end.

(** [dt] milliseconds pass: the timers that fall due run in order. *)
Definition elapse (dt : nat) (m : Debounced) : Debounced :=
  let limit := (clock (queue (closure m)) + dt)%nat in
  let m' := runDue (length (pending (queue (closure m)))) limit m in
  {| closure := {| timeout := timeout (closure m');
                   queue := setClock limit (queue (closure m')) |};
     inner := inner m'; fired := fired m' |}.

(** What happens to a debounced function: it is called, time passes, or
    something else changes the state [func] reads. *)
Inductive Input :=
  | Call (args : A)
  | Elapse (dt : nat)
  | Outside (f : St → St).

Definition step (m : Debounced) (i : Input) : Debounced :=
  match i with
  | Call args => call args m
  | Elapse dt => elapse dt m
  | Outside f => {| closure := closure m; inner := f (inner m); fired := fired m |}
  end.

Definition run (m : Debounced) (inputs : list Input) : Debounced :=
  foldl step m inputs.

(** One call of a burst: the call, the pause before the next call and
    what changes outside in the meantime. *)
Definition burst (calls : list (A * nat * (St → St))) : list Input :=
  flat_map (λ '(a, dt, f), [Call a; Elapse dt; Outside f]) calls.



(** A debounced function has at most one timer pending, the one its
    variable [timeout] names. *)
Definition closure_ok (c : Closure A) : Prop :=
  Forall (λ t, (tid t < nextId (queue c))%nat ∧ (clock (queue c) ≤ due t)%nat)
         (pending (queue c)) ∧
  (pending (queue c) = [] ∨
   ∃ t, pending (queue c) = [t] ∧ timeout c = Some (tid t)).
End Debounce.
Arguments Debounced : clear implicits.
Arguments Input : clear implicits.

(** ** 6. The page and the manager *)

(** An instance of a third-party chart library: its [resize] either counts
    a resize or throws. *)
Record ChartInstance := { resizeCount : nat; resizeError : option Exn }.

Definition resize : Cmd ChartInstance :=
  λ c, match resizeError c with
       | Some e => Throw e c
       | None => Normal {| resizeCount := S (resizeCount c); resizeError := None |}
       end.

Fixpoint resizeAll (l : list ChartInstance) : Outcome (list ChartInstance) :=
  match l with
  | [] => Normal []
  | c :: l' =>
      match resize c with
      | Throw e c' => Throw e (c' :: l')
      | Normal c' =>
          match resizeAll l' with
          | Normal r => Normal (c' :: r)
          | Throw e r => Throw e (c' :: r)
          end
      end
  end.

(** What subscribers and helpers act on: the document and the chart
    libraries.  [Chart_instances] is [None] when [Chart] is undefined or
    has no [instances]; [echarts] is [None] when undefined, [Some None]
    when it has no [instances]. *)
Record Page := {
  dom : DOM;
  Chart_instances : option (list ChartInstance);
  echarts : option (option (list ChartInstance))
}.

Definition withDom (f : DOM → DOM) (p : Page) : Page :=
  {| dom := f (dom p); Chart_instances := Chart_instances p; echarts := echarts p |}.

Inductive LogEntry :=
  | LogInfo (msg : string)
  | LogWarn (msg : string)
  | LogError (msg : string) (e : Exn)
  | LogTable (st : ViewportState).

(** The methods [init] binds and registers, and the event listeners of the
    script. *)
Inductive BoundMethod :=
  | MOnResize | MOnOrientationChange | MOnVisibilityChange | MOnZoomChange.

Inductive Handler :=
  | HBound (m : BoundMethod)
  | HDebounced (slot : nat)     (* the function [debounce] returned for closure [slot] *)
  | HStartup1                   (* the DOMContentLoaded listener of the IIFE *)
  | HStartup2.                  (* the DOMContentLoaded listener of section 8 *)

(** Subscribers: the four the script registers itself, and those of the
    host page, which receive the event name and the state and act on the
    page; they may throw. *)
Inductive Callback :=
  | CbPerformanceMonitor
  | CbCharts
  | CbTables
  | CbForms
  | CbHost (f : string → ViewportState → Page → Outcome Page).

(** Calls worth counting; no function reads the journal. *)
Inductive Action :=
  | ActAdjust                                          (* an adjustment pass *)
  | ActNotify (i : nat) (ev : string) (st : ViewportState).  (* listener [i] called *)

Record World := {
  win : Window;
  viewportState : ViewportState;
  listeners : list Callback;
  page : Page;
  console : list LogEntry;
  registry : list (string * Handler);          (* addEventListener *)
  closures : list (BoundMethod * nat * Closure unit);  (* made by debounce *)
  journal : list Action
}.

Definition setWin (f : Window → Window) (w : World) : World :=
  {| win := f (win w); viewportState := viewportState w; listeners := listeners w;
     page := page w; console := console w; registry := registry w;
     closures := closures w; journal := journal w |}.
Definition setState (f : ViewportState → ViewportState) (w : World) : World :=
  {| win := win w; viewportState := f (viewportState w); listeners := listeners w;
     page := page w; console := console w; registry := registry w;
     closures := closures w; journal := journal w |}.
Definition setListeners (f : list Callback → list Callback) (w : World) : World :=
  {| win := win w; viewportState := viewportState w; listeners := f (listeners w);
     page := page w; console := console w; registry := registry w;
     closures := closures w; journal := journal w |}.
Definition setPage (f : Page → Page) (w : World) : World :=
  {| win := win w; viewportState := viewportState w; listeners := listeners w;
     page := f (page w); console := console w; registry := registry w;
     closures := closures w; journal := journal w |}.
Definition setConsole (f : list LogEntry → list LogEntry) (w : World) : World :=
  {| win := win w; viewportState := viewportState w; listeners := listeners w;
     page := page w; console := f (console w); registry := registry w;
     closures := closures w; journal := journal w |}.
Definition setRegistry (f : list (string * Handler) → list (string * Handler))
    (w : World) : World :=
  {| win := win w; viewportState := viewportState w; listeners := listeners w;
     page := page w; console := console w; registry := f (registry w);
     closures := closures w; journal := journal w |}.
Definition setClosures
    (f : list (BoundMethod * nat * Closure unit) → list (BoundMethod * nat * Closure unit))
    (w : World) : World :=
  {| win := win w; viewportState := viewportState w; listeners := listeners w;
     page := page w; console := console w; registry := registry w;
     closures := f (closures w); journal := journal w |}.
Definition setJournal (f : list Action → list Action) (w : World) : World :=
  {| win := win w; viewportState := viewportState w; listeners := listeners w;
     page := page w; console := console w; registry := registry w;
     closures := closures w; journal := f (journal w) |}.

Definition console_log (msg : string) : World → World := setConsole (λ l, l ++ [LogInfo msg]).
Definition console_warn (msg : string) : World → World := setConsole (λ l, l ++ [LogWarn msg]).
Definition console_error (msg : string) (e : Exn) : World → World :=
  setConsole (λ l, l ++ [LogError msg e]).
Definition record (a : Action) : World → World := setJournal (λ l, l ++ [a]).
(** [target.addEventListener(type, h)]; every [bind] and every [debounce]
    of [init] makes a new function, so none of its registrations is a
    duplicate the browser would drop. *)
Definition addEventListener (type : string) (h : Handler) : World → World :=
  setRegistry (λ l, l ++ [(type, h)]).
Definition onDocumentElement (f : Element → Element) : World → World :=
  setPage (withDom (alter f 0%nat)).

Definition detectTouch (win : Window) : bool :=
  ontouchstart win
  || (if maxTouchPoints win is Some n then n >? 0 else false)
  || (if msMaxTouchPoints win is Some n then n >? 0 else false).

Definition detectConnectionSpeed (win : Window) : string :=
  let connection :=
    match nav_connection win with
    | Some c => Some c
    | None => match nav_mozConnection win with
              | Some c => Some c
              | None => nav_webkitConnection win
              end
    end in
  match connection with
  | None => "unknown"
  | Some c =>
      match effectiveType c with
      | Some t => if decide (t = "") then "unknown" else t
      | None => "unknown"
      end
  end.

Definition setTouchAndConnection (touch : bool) (conn : string)
    (st : ViewportState) : ViewportState := {|
  width := width st; height := height st; isMobile := isMobile st;
  isTablet := isTablet st; isDesktop := isDesktop st;
  isSmallDesktop := isSmallDesktop st; isLargeDesktop := isLargeDesktop st;
  is4K := is4K st; pixelRatio := pixelRatio st; orientation := orientation st;
  zoomLevel := zoomLevel st; isRetina := isRetina st;
  isTouch := touch; connection := conn
|}.

Definition setOrientation (o : string) (st : ViewportState) : ViewportState := {|
  width := width st; height := height st; isMobile := isMobile st;
  isTablet := isTablet st; isDesktop := isDesktop st;
  isSmallDesktop := isSmallDesktop st; isLargeDesktop := isLargeDesktop st;
  is4K := is4K st; pixelRatio := pixelRatio st; orientation := o;
  zoomLevel := zoomLevel st; isRetina := isRetina st;
  isTouch := isTouch st; connection := connection st
|}.

Definition setZoomLevel (z : Z) (st : ViewportState) : ViewportState := {|
  width := width st; height := height st; isMobile := isMobile st;
  isTablet := isTablet st; isDesktop := isDesktop st;
  isSmallDesktop := isSmallDesktop st; isLargeDesktop := isLargeDesktop st;
  is4K := is4K st; pixelRatio := pixelRatio st; orientation := orientation st;
  zoomLevel := z; isRetina := isRetina st;
  isTouch := isTouch st; connection := connection st
|}.

Definition viewportClasses : list string :=
  ["viewport-xs"; "viewport-sm"; "viewport-md"; "viewport-lg"; "viewport-xl"; "viewport-2xl"].

Definition updateViewportClass (w : World) : World :=
  let st := viewportState w in
  onDocumentElement
    (λ doc,
       setAttribute "data-touch" (if isTouch st then "true" else "false")
         (setAttribute "data-viewport" (getViewportName st)
            (classList_add (viewportClass st)
               (classList_remove viewportClasses doc))))
    w.

Definition updateViewportState (w h : Z) (wd : World) : World :=
  updateViewportClass (setState (setViewportSize w h) wd).

Definition applyResponsiveAdjustments (w : World) : World :=
  setPage (withDom (adjustmentPass (viewportState w))) (record ActAdjust w).

Definition subscribe (callback : Callback) : World → World :=
  setListeners (λ l, l ++ [callback]).

(** [getInfo()]: a copy of the state with the viewport name added. *)
Definition getInfo (w : World) : ViewportState * string :=
  (viewportState w, getViewportName (viewportState w)).

Definition logState (w : World) : World :=
  setConsole (λ l, l ++ [LogTable (viewportState w)]) w.

(** ** 7. Touch, performance, images and the feature helpers *)

Definition touchTargetSelector : Selector :=
  [[CTag "button"]; [CTag "a"; CClass "btn"]; [CTag "input"; CAttrEq "type" "button"]].

Definition enhanceTouchTargets (d : DOM) : DOM :=
  forEachElement (λ button, setStyle MinWidth "44px" (setStyle MinHeight "44px" button))
    (querySelectorAll touchTargetSelector d) d.

Definition enableTouchScrolling (d : DOM) : DOM :=
  forEachElement (setStyle WebkitOverflowScrolling "touch")
    (querySelectorAll [[CClass "table-responsive"]; [CClass "asset-table-container"]] d) d.

Definition TouchManager_init (w : World) : World :=
  if isTouch (viewportState w)
  then setPage (withDom enableTouchScrolling)
         (setPage (withDom enhanceTouchTargets)
            (onDocumentElement (classList_add "touch-device") w))
  else w.

Definition animated : Selector := [[CClassSub "animation"]].

Definition pauseAnimations (d : DOM) : DOM :=
  forEachElement (setStyle AnimationPlayState "paused") (querySelectorAll animated d) d.

Definition resumeAnimations (d : DOM) : DOM :=
  forEachElement (setStyle AnimationPlayState "running") (querySelectorAll animated d) d.

Definition PerformanceMonitor_init (w : World) : World :=
  let conn := connection (viewportState w) in
  let w1 :=
    if bool_decide (conn = "4g") || bool_decide (conn = "lte")
    then console_log "High-speed connection detected" w
    else if bool_decide (conn = "2g") || bool_decide (conn = "3g")
    then console_warn "Slow connection detected. Consider optimizing images and assets." w
    else w in
  subscribe CbPerformanceMonitor w1.

Definition setupLazyLoading (w : World) : World :=
  if hasIntersectionObserver (win w) && hasLoadingAttr (win w)
  then setPage (withDom (λ d,
         forEachElement
           (λ img,
              let img1 := setAttribute "loading" "lazy" img in
              match attributes img1 !! "data-src" with
              | Some src =>
                  if decide (src = "") then img1
                  else removeAttribute "data-src" (setAttribute "src" src img1)
              | None => img1
              end)
           (querySelectorAll [[CTag "img"; CAttr "data-src"]] d) d)) w
  else w.

Definition ImageOptimizer_init (w : World) : World := setupLazyLoading w.

(** [window.makeChartsResponsive]: the chart elements first, then the
    instances of Chart.js, then those of ECharts; a [resize] that throws
    ends the helper there. *)
Definition makeChartsResponsive (st : ViewportState) : Cmd Page :=
  λ p,
  let p1 := withDom (λ d,
    forEachElement
      (λ chartElement,
         if isMobile st
         then setStyle MaxHeight "50vh" (setAttribute "data-responsive" "true" chartElement)
         else if isTablet st then setStyle MaxHeight "60vh" chartElement
         else setStyle MaxHeight "80vh" chartElement)
      (querySelectorAll [[CAttr "data-chart-type"]] d) d) p in
  let chartJs : Outcome Page :=
    match Chart_instances p1 with
    | Some l =>
        match resizeAll l with
        | Normal l' =>
            Normal {| dom := dom p1; Chart_instances := Some l'; echarts := echarts p1 |}
        | Throw e l' =>
            Throw e {| dom := dom p1; Chart_instances := Some l'; echarts := echarts p1 |}
        end
    | None => Normal p1
    end in
  match chartJs with
  | Throw e p2 => Throw e p2
  | Normal p2 =>
      match echarts p2 with
      | None => Normal p2
      | Some None => Normal p2
      | Some (Some l) =>
          match resizeAll l with
          | Normal l' =>
              Normal {| dom := dom p2; Chart_instances := Chart_instances p2;
                        echarts := Some (Some l') |}
          | Throw e l' =>
              Throw e {| dom := dom p2; Chart_instances := Chart_instances p2;
                         echarts := Some (Some l') |}
          end
      end
  end.

Definition makeTablesResponsive (st : ViewportState) (d : DOM) : DOM :=
  let tables := querySelectorAll (cls "responsive-table") d in
  if isMobile st
  then forEachElement
         (λ table,
            if negb (token_contains "card-view" (classList table))
            then classList_add "card-view" table else table)
         tables d
  else forEachElement (classList_remove ["card-view"]) tables d.

Definition enhanceFormResponsiveness (st : ViewportState) (d : DOM) : DOM :=
  forEachElement
    (λ input,
       if isTouch st
       then setStyle MinHeight "44px" (setStyle FontSize "16px" input)
       else input)
    (querySelectorAll [[CTag "input"]; [CTag "textarea"]; [CTag "select"]] d) d.

(** [callback(event, state)] *)
Definition invoke (cb : Callback) (ev : string) (st : ViewportState) : Cmd Page :=
  match cb with
  | CbPerformanceMonitor =>
      if decide (ev = "hide") then lift (withDom pauseAnimations)
      else if decide (ev = "show") then lift (withDom resumeAnimations)
      else Normal
  | CbCharts =>
      if bool_decide (ev = "resize") || bool_decide (ev = "orientationchange")
      then makeChartsResponsive st else Normal
  | CbTables =>
      if decide (ev = "resize") then lift (withDom (makeTablesResponsive st)) else Normal
  | CbForms =>
      if decide (ev = "resize") then lift (withDom (enhanceFormResponsiveness st)) else Normal
  | CbHost f => f ev st
  end.

(** ** 8. Notification and the event handlers *)

(** Listener [i] is called on the page of the world. *)
Definition callListener (i : nat) (cb : Callback) (ev : string) (st : ViewportState)
    : Cmd World :=
  λ w,
  let w1 := record (ActNotify i ev st) w in
  match invoke cb ev st (page w1) with
  | Normal p => Normal (setPage (λ _, p) w1)
  | Throw e p => Throw e (setPage (λ _, p) w1)
  end.

Definition triggerListeners (ev : string) (st : ViewportState) : Cmd World :=
  λ w,
  forEachFrom
    (λ i callback,
       try_catch (callListener i callback ev st)
         (λ e, lift (console_error "Error in responsive listener:" e)))
    0%nat (listeners w) w.

Definition onResize : Cmd World :=
  λ w,
  let newWidth := innerWidth (win w) in
  let newHeight := innerHeight (win w) in
  if negb (bool_decide (newWidth = width (viewportState w)))
     || negb (bool_decide (newHeight = height (viewportState w)))
  then (lift (updateViewportState newWidth newHeight) ;;
        lift applyResponsiveAdjustments ;;
        (λ w, triggerListeners "resize" (viewportState w) w)) w
  else Normal w.

Definition onOrientationChange : Cmd World :=
  λ w,
  let orientation' := orientationOf (innerWidth (win w)) (innerHeight (win w)) in
  if negb (bool_decide (orientation' = orientation (viewportState w)))
  then (lift (setState (setOrientation orientation')) ;;
        lift (onDocumentElement (setAttribute "data-orientation" orientation')) ;;
        (λ w, triggerListeners "orientationchange" (viewportState w) w)) w
  else Normal w.

Definition onVisibilityChange : Cmd World :=
  λ w,
  if hidden (win w)
  then triggerListeners "hide" (viewportState w) w
  else (onResize ;; (λ w, triggerListeners "show" (viewportState w) w)) w.

Definition onZoomChange : Cmd World :=
  λ w,
  let currentZoom := zoomOf (devicePixelRatio (win w)) in
  if negb (bool_decide (currentZoom = zoomLevel (viewportState w)))
  then (lift (setState (setZoomLevel currentZoom)) ;;
        lift (console_log "Zoom level changed to:") ;;
        (λ w, triggerListeners "zoom" (viewportState w) w)) w
  else Normal w.

Definition boundMethod (m : BoundMethod) : Cmd World :=
  match m with
  | MOnResize => onResize
  | MOnOrientationChange => onOrientationChange
  | MOnVisibilityChange => onVisibilityChange
  | MOnZoomChange => onZoomChange
  end.

(** [this.debounce(func, wait)]: a new closure; the function returned is
    [HDebounced] of its slot. *)
Definition debounce (func : BoundMethod) (wait : nat) (w : World) : Handler * World :=
  (HDebounced (length (closures w)),
   setClosures (λ l, l ++ [(func, wait, newClosure 0%nat)]) w).

Definition callDebounced (slot : nat) : World → World :=
  setClosures (alter (λ '(func, wait, c), (func, wait, executedFunction wait tt c)) slot).

Definition init (w : World) : World :=
  let w := setState (setTouchAndConnection (detectTouch (win w))
                                           (detectConnectionSpeed (win w))) w in
  let w := console_log "ResponsiveManager initialized:" w in
  let w := addEventListener "resize" (HBound MOnResize) w in
  let w := addEventListener "orientationchange" (HBound MOnOrientationChange) w in
  let w := addEventListener "visibilitychange" (HBound MOnVisibilityChange) w in
  let '(debounced, w) := debounce MOnZoomChange 500%nat w in
  let w := addEventListener "wheel" debounced w in
  let w := applyResponsiveAdjustments w in
  let w := onDocumentElement (classList_add "js-enabled") w in
  updateViewportClass w.

(** ** 9. Start-up

    The two DOMContentLoaded listeners, over whatever their steps do; the
    script's own steps are put in by [handle] below.  The [typeof] guards
    of the first listener hold for the constants they test. *)
Section Startup.
Variables RM_init TM_init PM_init IO_init enhanceForm : Cmd World.

Definition startupHandler1 : Cmd World :=
  try_catch
    (RM_init ;; TM_init ;; PM_init ;; IO_init ;;
     lift (console_log "Responsive Design System Loaded"))
    (λ error, lift (console_error "Error initializing Responsive Design System:" error)).

Definition startupHandler2 : Cmd World :=
  RM_init ;; enhanceForm.
End Startup.

Definition handle (h : Handler) : Cmd World :=
  match h with
  | HBound m => boundMethod m
  | HDebounced slot => lift (callDebounced slot)
  | HStartup1 =>
      startupHandler1 (lift init) (lift TouchManager_init)
        (lift PerformanceMonitor_init) (lift ImageOptimizer_init)
  | HStartup2 =>
      startupHandler2 (lift init)
        (lift (λ w, setPage (withDom (enhanceFormResponsiveness (viewportState w))) w))
  end.

(** The browser dispatches an event: the listeners registered for it run
    in registration order; an exception that leaves a listener is reported
    and the next listener runs. *)
Definition listenersFor (type : string) (w : World) : list Handler :=
  (filter (λ r, r.1 = type) (registry w)).*2.

Definition dispatchEvent (type : string) (w : World) : World :=
  foldl
    (λ w h, match handle h w with
            | Normal w' => w'
            | Throw e w' => console_error "Uncaught" e w'
            end)
    w (listenersFor type w).

(** Time passes for the debounced functions: each closure's due timers run
    its [func]. *)
Definition elapseClosure (dt : nat) (slot : nat) (w : World) : World :=
  match closures w !! slot with
  | None => w
  | Some (func, wait, c) =>
      let m := elapse (λ _ w, settle (boundMethod func w)) dt
                 {| closure := c; inner := w; fired := [] |} in
      setClosures (alter (λ _, (func, wait, closure m)) slot) (inner m)
  end.

Definition elapseAll (dt : nat) (w : World) : World :=
  foldl (λ w slot, elapseClosure dt slot w) w (seq 0 (length (closures w))).

(** The script is evaluated: the state object is built from the window,
    the first DOMContentLoaded listener is added, the chart and table
    subscribers are registered, the second DOMContentLoaded listener is
    added and the form subscriber is registered. *)
Definition loadScript (wn : Window) (p : Page) : World := {|
  win := wn;
  viewportState := initialViewportState wn;
  listeners := [CbCharts; CbTables; CbForms];
  page := p;
  console := [];
  registry := [("DOMContentLoaded", HStartup1); ("DOMContentLoaded", HStartup2)];
  closures := [];
  journal := []
|}.

Definition startup (w : World) : World := dispatchEvent "DOMContentLoaded" w.

(** ** 10. Notions used in the statements and proofs *)

(** Two elements are alike when they differ at most in their inline style
    and in having the class the modal adjustment toggles. *)
Definition alike (e e' : Element) : Prop :=
  tagName e = tagName e' ∧ attributes e = attributes e' ∧
  parentIndex e = parentIndex e' ∧
  ∀ c, c ≠ "modal-dialog-scrollable" → token_contains c (classList e) = token_contains c (classList e').

(** Selectors that only test classes other than the toggled one. *)
Definition plainCond (c : Cond) : bool :=
  match c with
  | CClass x => negb (bool_decide (x = "modal-dialog-scrollable"))
  | _ => false
  end.
Definition plainSel (sel : Selector) : bool := forallb (forallb plainCond) sel.


(** The write each procedure of the pass makes to an element it reaches,
    and the elements it reaches. *)
Definition logoStyle (st : ViewportState) : Element → Element :=
  if isMobile st then setStyle MaxHeight "50px"
  else if isTablet st then setStyle MaxHeight "70px"
  else setStyle MaxHeight "85px".

Definition chartStyle (st : ViewportState) : Element → Element :=
  λ chart,
    if isMobile st then setStyle MaxHeight "50vh" chart
    else if isTablet st then setStyle MaxHeight "60vh" chart
    else setStyle MaxHeight "70vh" chart.

Definition tableStyle (st : ViewportState) : Element → Element :=
  if isMobile st then setStyle FontSize "0.85rem" else setStyle FontSize "1rem".

Definition modalStyle (st : ViewportState) : Element → Element :=
  λ modal,
    if isMobile st
    then setStyle Margin "0.5rem" (classList_add "modal-dialog-scrollable" modal)
    else setStyle Margin "1.75rem auto"
           (classList_remove ["modal-dialog-scrollable"] modal).

Definition containerOf (d : DOM) (table : nat) : option nat :=
  ref_or (closest (cls "table-responsive") d table)
         (closest (cls "asset-table-container") d table).

Definition logoNodes (d : DOM) : list nat :=
  option_list (querySelector (cls "ubc-logo") d) ++
  option_list (querySelector (cls "ubc-facilities-logo") d).
Definition chartNodes (d : DOM) : list nat := querySelectorAll chartSelector d.
Definition containerNodes (d : DOM) : list nat :=
  omap (containerOf d) (querySelectorAll (cls "asset-table") d).
Definition modalNodes (d : DOM) : list nat := querySelectorAll (cls "modal-dialog") d.

(** The pass with the elements to write to fixed beforehand. *)
Definition passOn (st : ViewportState) (logos charts containers modals : list nat)
    (d : DOM) : DOM :=
  forEachElement (modalStyle st) modals
    (forEachElement (tableStyle st) containers
       (forEachElement (chartStyle st) charts
          (forEachElement (logoStyle st) logos d))).

(** The world once listener [i] has been called with [ev] and [st]: what
    the listener made of the page, and the logged error if it threw. *)
Definition afterListener (ev : string) (st : ViewportState) (w : World)
    (i : nat) (cb : Callback) : World :=
  let w1 := record (ActNotify i ev st) w in
  match invoke cb ev st (page w1) with
  | Normal p => setPage (λ _, p) w1
  | Throw e p => console_error "Error in responsive listener:" e (setPage (λ _, p) w1)
  end.

(** The world when a notification has reached the first [n] listeners. *)
Definition notified (ev : string) (st : ViewportState) (w : World) (n : nat) : World :=
  foldl (λ w '(i, cb), afterListener ev st w i cb) w
        (take n (imap (λ i cb, (i, cb)) (listeners w))).

(** The calls that notify [n] listeners once each, in order. *)
Definition notifications (ev : string) (st : ViewportState) (n : nat) : list Action :=
  (λ i, ActNotify i ev st) <$> seq 0 n.

(** What the handlers of the manager leave alone while they notify. *)
Definition sameManager (w w' : World) : Prop :=
  win w' = win w ∧ viewportState w' = viewportState w ∧ listeners w' = listeners w ∧
  registry w' = registry w ∧ closures w' = closures w.

(** How often [init] has announced itself on the console. *)
Definition isInitLog (e : LogEntry) : bool :=
  match e with
  | LogInfo msg => bool_decide (msg = "ResponsiveManager initialized:")
  | _ => false
  end.
Definition initRuns (w : World) : nat := length (List.filter isInitLog (console w)).

(** The listeners one run of [init] registers; [slot] is the closure its
    call of [debounce] makes. *)
Definition initHandlers (slot : nat) : list (string * Handler) :=
  [ ("resize", HBound MOnResize);
    ("orientationchange", HBound MOnOrientationChange);
    ("visibilitychange", HBound MOnVisibilityChange);
    ("wheel", HDebounced slot) ].

(** What a handler leaves alone whatever it does to the state. *)
Definition sameManagerBut (w w' : World) : Prop :=
  win w' = win w ∧ listeners w' = listeners w ∧
  registry w' = registry w ∧ closures w' = closures w.

(** The zoom check as the [func] of a debounced function: the wheel event
    it is passed carries nothing [onZoomChange] reads. *)
Definition zoomCheck (_ : unit) (w : World) : World := settle (onZoomChange w).

(** [n] wheel events with the pauses between them and what happens to the
    window in each pause. *)
Abbreviation WheelBurst := (list (unit * nat * (World → World))).

(** ** 11. Sample data *)

Definition sampleWindow : Window := {|
  innerWidth := 1000; innerHeight := 700; devicePixelRatio := 1;
  ontouchstart := false; maxTouchPoints := None; msMaxTouchPoints := None;
  nav_connection := None; nav_mozConnection := None; nav_webkitConnection := None;
  hidden := false; hasIntersectionObserver := true; hasLoadingAttr := true
|}.

Definition sampleState : ViewportState := initialViewportState sampleWindow.

(** The viewport name of a state whose size fields were set from width [w]. *)
Definition nameAt (w : Z) : string :=
  getViewportName (setViewportSize w 700 sampleState).

Definition noStyle : Style := {|
  maxHeight := None; fontSize := None; minHeight := None; minWidth := None;
  margin := None; animationPlayState := None; webkitOverflowScrolling := None
|}.

Definition element (tag : string) (classes : list string) (parent : option nat) : Element :=
  {| tagName := tag; classList := classes; attributes := ∅;
     parentIndex := parent; style := noStyle |}.

(** html > body > (img.ubc-logo, div.table-responsive > table.asset-table,
    div.chart-container.ubc-logo, div.modal-dialog) *)
Definition sampleDom : DOM := [
  element "html" [] None;
  element "body" [] (Some 0%nat);
  element "img" ["ubc-logo"] (Some 1%nat);
  element "div" ["table-responsive"] (Some 1%nat);
  element "table" ["asset-table"] (Some 3%nat);
  element "div" ["chart-container"; "ubc-facilities-logo"] (Some 1%nat);
  element "div" ["modal-dialog"] (Some 1%nat)
].

(** A document in which no selector of the pass matches. *)
Definition plainDom : DOM := [
  element "html" [] None;
  element "body" [] (Some 0%nat);
  element "p" ["intro"] (Some 1%nat)
].

Definition samplePage : Page :=
  {| dom := sampleDom; Chart_instances := None; echarts := None |}.

(** Two subscribers of a host page: one marks the body and throws, one
    marks the body. *)
Definition throwingSubscriber : Callback :=
  CbHost (λ ev st p, Throw "boom" (withDom (alter (classList_add "seen-by-first") 1%nat) p)).
Definition markingSubscriber : Callback :=
  CbHost (λ ev st p, Normal (withDom (alter (classList_add "seen-by-second") 1%nat) p)).

Definition sampleWorld : World :=
  subscribe markingSubscriber (subscribe throwingSubscriber
    {| win := sampleWindow; viewportState := sampleState; listeners := [];
       page := samplePage; console := []; registry := []; closures := [];
       journal := [] |}).

(** The sample world after the window was narrowed to 500 pixels. *)
Definition narrowedWorld : World :=
  setWin (λ wn, {| innerWidth := 500; innerHeight := innerHeight wn;
                   devicePixelRatio := devicePixelRatio wn;
                   ontouchstart := ontouchstart wn; maxTouchPoints := maxTouchPoints wn;
                   msMaxTouchPoints := msMaxTouchPoints wn;
                   nav_connection := nav_connection wn;
                   nav_mozConnection := nav_mozConnection wn;
                   nav_webkitConnection := nav_webkitConnection wn;
                   hidden := hidden wn;
                   hasIntersectionObserver := hasIntersectionObserver wn;
                   hasLoadingAttr := hasLoadingAttr wn |}) sampleWorld.

Definition hiddenWindow : Window := {|
  innerWidth := 1000; innerHeight := 700; devicePixelRatio := 1;
  ontouchstart := false; maxTouchPoints := None; msMaxTouchPoints := None;
  nav_connection := None; nav_mozConnection := None; nav_webkitConnection := None;
  hidden := true; hasIntersectionObserver := true; hasLoadingAttr := true
|}.

(** The page once the script has run and DOMContentLoaded has fired, in a
    visible and in a hidden tab. *)
Definition startedWorld : World := startup (loadScript sampleWindow samplePage).
Definition startedHiddenWorld : World := startup (loadScript hiddenWindow samplePage).

(** A start-up step that throws, as [init] does when a call into the page
    raises a TypeError. *)
Definition failingStep : Cmd World := λ w, Throw "TypeError" (console_log "ResponsiveManager initialized:" w).

(** The window at another device pixel ratio. *)
Definition setDevicePixelRatio (r : Q) : World → World :=
  setWin (λ wn, {| innerWidth := innerWidth wn; innerHeight := innerHeight wn;
                   devicePixelRatio := r;
                   ontouchstart := ontouchstart wn; maxTouchPoints := maxTouchPoints wn;
                   msMaxTouchPoints := msMaxTouchPoints wn;
                   nav_connection := nav_connection wn;
                   nav_mozConnection := nav_mozConnection wn;
                   nav_webkitConnection := nav_webkitConnection wn;
                   hidden := hidden wn;
                   hasIntersectionObserver := hasIntersectionObserver wn;
                   hasLoadingAttr := hasLoadingAttr wn |}).

(** A debounced zoom check that has not been called yet, and three wheel
    events 100 ms and 499 ms apart while the user zooms to 125% and 150%. *)
Definition freshZoomDebounce : Debounced unit World :=
  {| closure := newClosure 0%nat; inner := sampleWorld; fired := [] |}.

Definition sampleBurst : WheelBurst :=
  [ (tt, 100%nat, setDevicePixelRatio (5 # 4));
    (tt, 499%nat, setDevicePixelRatio (3 # 2)) ].


(** ** 12. Notions used in the further properties *)

(** A window with a 4g connection reported under the [moz] prefix and a
    touch screen. *)
Definition phoneWindow : Window := {|
  innerWidth := 400; innerHeight := 800; devicePixelRatio := 3;
  ontouchstart := false; maxTouchPoints := Some 5; msMaxTouchPoints := None;
  nav_connection := None;
  nav_mozConnection := Some {| effectiveType := Some "4g" |};
  nav_webkitConnection := Some {| effectiveType := Some "2g" |};
  hidden := false; hasIntersectionObserver := true; hasLoadingAttr := true
|}.

(** The sample world after the window was turned to 700 by 1000 pixels. *)
Definition turnedWorld : World :=
  setWin (λ wn, {| innerWidth := 700; innerHeight := 1000;
                   devicePixelRatio := devicePixelRatio wn;
                   ontouchstart := ontouchstart wn; maxTouchPoints := maxTouchPoints wn;
                   msMaxTouchPoints := msMaxTouchPoints wn;
                   nav_connection := nav_connection wn;
                   nav_mozConnection := nav_mozConnection wn;
                   nav_webkitConnection := nav_webkitConnection wn;
                   hidden := hidden wn;
                   hasIntersectionObserver := hasIntersectionObserver wn;
                   hasLoadingAttr := hasLoadingAttr wn |}) sampleWorld.

(** The fields of the state no size, orientation or zoom update writes. *)
Definition capabilities (st : ViewportState) : Q * bool * bool * string :=
  (pixelRatio st, isRetina st, isTouch st, connection st).


(** What [updateViewportClass] does to the document element. *)
Definition markViewport (st : ViewportState) (doc : Element) : Element :=
  setAttribute "data-touch" (if isTouch st then "true" else "false")
    (setAttribute "data-viewport" (getViewportName st)
       (classList_add (viewportClass st)
          (classList_remove viewportClasses doc))).

(** The sample world on a 4K screen. *)
Definition wideWorld : World := setState (setViewportSize 2560 1440) sampleWorld.

(** The tier values of the pass. *)
Definition logoHeight (st : ViewportState) : string :=
  if isMobile st then "50px" else if isTablet st then "70px" else "85px".
Definition chartHeight (st : ViewportState) : string :=
  if isMobile st then "50vh" else if isTablet st then "60vh" else "70vh".
Definition tableFontSize (st : ViewportState) : string :=
  if isMobile st then "0.85rem" else "1rem".

(** The style properties the pass never writes. *)
Definition otherProperties (s : Style) :=
  (minHeight s, minWidth s, animationPlayState s, webkitOverflowScrolling s).

(** A table inside an [asset-table-container] inside a [table-responsive]
    block, and a second logo. *)
Definition nestedDom : DOM := [
  element "html" [] None;
  element "div" ["table-responsive"] (Some 0%nat);
  element "div" ["asset-table-container"] (Some 1%nat);
  element "table" ["asset-table"] (Some 2%nat);
  element "img" ["ubc-logo"] (Some 0%nat);
  element "img" ["ubc-logo"] (Some 0%nat)
].

(** A chart block that also carries a chart type, as the chart helper
    expects. *)
Definition chartDom : DOM := [
  element "html" [] None;
  {| tagName := "div"; classList := ["chart-container"];
     attributes := {["data-chart-type" := "bar"]};
     parentIndex := Some 0%nat; style := noStyle |}
].

(** The chart elements part of [makeChartsResponsive]. *)
Definition chartElementStyle (st : ViewportState) : Element → Element :=
  λ chartElement,
    if isMobile st
    then setStyle MaxHeight "50vh" (setAttribute "data-responsive" "true" chartElement)
    else if isTablet st then setStyle MaxHeight "60vh" chartElement
    else setStyle MaxHeight "80vh" chartElement.

(** What a loop over the elements a selector matches makes of an element. *)
Definition onMatch (sel : Selector) (g : Element → Element) (e : Element) : Element :=
  if matchesSel sel e then g e else e.

(** A page with a button, a text input, an animated banner and a table
    meant for the card view. *)
Definition formDom : DOM := [
  element "html" [] None;
  element "button" [] (Some 0%nat);
  element "input" [] (Some 0%nat);
  element "div" ["fade-animation"] (Some 0%nat);
  element "table" ["responsive-table"; "card-view"] (Some 0%nat);
  element "a" ["btn"; "table-responsive"] (Some 0%nat)
].

Definition touchState : ViewportState :=
  setTouchAndConnection true "4g" (setViewportSize 400 800 sampleState).



(** What [setupLazyLoading] does to an image. *)
Definition lazyImage (img : Element) : Element :=
  let img1 := setAttribute "loading" "lazy" img in
  match attributes img1 !! "data-src" with
  | Some src =>
      if decide (src = "") then img1
      else removeAttribute "data-src" (setAttribute "src" src img1)
  | None => img1
  end.

(** A page with two images to load lazily, one with an empty source. *)
Definition imageDom : DOM := [
  element "html" [] None;
  {| tagName := "img"; classList := []; attributes := {["data-src" := "/a.png"]};
     parentIndex := Some 0%nat; style := noStyle |};
  {| tagName := "img"; classList := []; attributes := {["data-src" := ""]};
     parentIndex := Some 0%nat; style := noStyle |}
].

(** The listeners of the script once start-up has run. *)
Definition ownListeners : list Callback :=
  [CbCharts; CbTables; CbForms; CbPerformanceMonitor].

(** Calls of a debounced function that are each followed by a pause, and
    the runs of [func] they lead to when every pause is at least [wait]:
    one per call, [wait] after it. *)
Definition spaced {A St : Type} (calls : list (A * nat)) : list (Input A St) :=
  flat_map (λ '(a, dt), [Call a; Elapse dt]) calls.

Fixpoint firings {A : Type} (wait now : nat) (calls : list (A * nat)) : list (nat * A) :=
  match calls with
  | [] => []
  | (a, dt) :: rest => ((now + wait)%nat, a) :: firings wait (now + dt)%nat rest
  end.

Definition isCall {A St : Type} (i : Input A St) : bool :=
  match i with Call _ => true | _ => false end.

Definition callCount {A St : Type} (inputs : list (Input A St)) : nat :=
  length (List.filter isCall inputs).


(** A debounced function that collects its arguments, not yet called. *)
Definition collect (a : nat) (s : list nat) : list nat := s ++ [a].

Definition sampleDebounced : Debounced nat (list nat) :=
  {| closure := newClosure 0; inner := []; fired := [] |}.
(** * Properties *)

(** ** Viewport names and categories *)

(** Decides the comparisons of a width with the four thresholds. *)
Ltac breakpoints w :=
  rewrite ?Z.geb_leb;
  destruct (Z.ltb_spec w 576); destruct (Z.leb_spec 576 w);
  destruct (Z.ltb_spec w 992); destruct (Z.leb_spec 992 w);
  destruct (Z.ltb_spec w 1200); destruct (Z.leb_spec 1200 w);
  destruct (Z.leb_spec 1920 w);
  try lia; simpl.

Lemma updateViewportState_state w h wd :
  viewportState (updateViewportState w h wd) = setViewportSize w h (viewportState wd).
Proof. reflexivity. Qed.

Lemma name_of_width w h st :
  getViewportName (setViewportSize w h st) =
    if w <? 576 then "xs" else if w <? 992 then "sm"
    else if w <? 1200 then "lg" else if w <? 1920 then "xl" else "4k".
Proof.
  unfold getViewportName, setViewportSize; simpl. breakpoints w; try reflexivity.
  all: destruct (Z.ltb_spec w 1920); try lia; reflexivity.
Qed.

Lemma name_of_initial wn :
  getViewportName (initialViewportState wn) =
    getViewportName (setViewportSize (innerWidth wn) (innerHeight wn) (initialViewportState wn)).
Proof. reflexivity. Qed.

(** C1, as the specification lists the boundary values: false, since 992
    and 1199 give "lg" and 1200 and 1919 give "xl". *)
Lemma C1_boundary_values_counterexample :
  ¬ (nameAt 575 = "xs" ∧ nameAt 576 = "sm" ∧ nameAt 991 = "sm" ∧
     nameAt 992 = "md" ∧ nameAt 1199 = "md" ∧ nameAt 1200 = "lg" ∧
     nameAt 1919 = "lg" ∧ nameAt 1920 = "4k").
Proof. intros (_ & _ & _ & H & _). vm_compute in H. discriminate H. Qed.

(** C1 (amended): for every state whose size fields are set from a width,
    575 gives "xs", 576 and 991 give "sm", 992 and 1199 give "lg", 1200 and
    1919 give "xl", 1920 gives "4k"; at each of the four thresholds the
    name is that of the category above, whose tier is higher than the tier
    one pixel below. *)
Theorem C1_boundary_values (h : Z) (st : ViewportState) :
  let name w := getViewportName (setViewportSize w h st) in
  name 575 = "xs" ∧ name 576 = "sm" ∧ name 991 = "sm" ∧
  name 992 = "lg" ∧ name 1199 = "lg" ∧ name 1200 = "xl" ∧
  name 1919 = "xl" ∧ name 1920 = "4k" ∧
  Forall (λ t, name t = name (t + 1) ∧
               (tierIndex (name (t - 1)%Z) < tierIndex (name t))%nat)
         [576; 992; 1200; 1920].
Proof.
  intros name. subst name. cbv beta. rewrite !name_of_width.
  repeat split; try reflexivity.
  repeat constructor; rewrite !name_of_width; simpl; vm_compute; lia.
Qed.

(** C6: [getViewportName] returns one of the six names, chosen with the
    precedence 4K, large desktop, small desktop, desktop, tablet, else xs,
    and on states set from widths a larger width never has a lower tier. *)
Theorem C6_name_total_precedence_monotone :
  (∀ st, getViewportName st ∈ viewportNames) ∧
  NoDup viewportNames ∧
  (∀ st,
     (is4K st = true → getViewportName st = "4k") ∧
     (is4K st = false → isLargeDesktop st = true → getViewportName st = "xl") ∧
     (is4K st = false → isLargeDesktop st = false → isSmallDesktop st = true →
        getViewportName st = "lg") ∧
     (is4K st = false → isLargeDesktop st = false → isSmallDesktop st = false →
        isDesktop st = true → getViewportName st = "md") ∧
     (is4K st = false → isLargeDesktop st = false → isSmallDesktop st = false →
        isDesktop st = false → isTablet st = true → getViewportName st = "sm") ∧
     (is4K st = false → isLargeDesktop st = false → isSmallDesktop st = false →
        isDesktop st = false → isTablet st = false → getViewportName st = "xs")) ∧
  (∀ w1 w2 h1 h2 st1 st2, w1 ≤ w2 →
     (tierIndex (getViewportName (setViewportSize w1 h1 st1)) ≤
      tierIndex (getViewportName (setViewportSize w2 h2 st2)))%nat).
Proof.
  split; [|split; [|split]].
  - intros st. unfold getViewportName, viewportNames.
    destruct (is4K st), (isLargeDesktop st), (isSmallDesktop st), (isDesktop st),
      (isTablet st); set_solver.
  - unfold viewportNames. compute_done.
  - intros st. unfold getViewportName.
    destruct (is4K st), (isLargeDesktop st), (isSmallDesktop st), (isDesktop st),
      (isTablet st); repeat split; congruence.
  - intros w1 w2 h1 h2 st1 st2 Hle. rewrite !name_of_width.
    destruct (Z.ltb_spec w1 576), (Z.ltb_spec w1 992), (Z.ltb_spec w1 1200),
      (Z.ltb_spec w1 1920), (Z.ltb_spec w2 576), (Z.ltb_spec w2 992),
      (Z.ltb_spec w2 1200), (Z.ltb_spec w2 1920); try lia; vm_compute; lia.
Qed.

Lemma C6_witness :
  (tierIndex (getViewportName (setViewportSize 500 700 sampleState)) ≤
   tierIndex (getViewportName (setViewportSize 1300 700 sampleState)))%nat.
Proof.
  apply (proj2 (proj2 (proj2 C6_name_total_precedence_monotone))). vm_compute. discriminate.
Defined.

Lemma categories_of_width w h st :
  let st' := setViewportSize w h st in
  breakpointsOfState st' = breakpointsOfWidth w ∧
  count_true (categories st') = 1%nat ∧
  isDesktop st' = isSmallDesktop st' || isLargeDesktop st'.
Proof.
  unfold breakpointsOfState, breakpointsOfWidth, categories, setViewportSize; simpl.
  breakpoints w; repeat split; reflexivity.
Qed.

(** C7: in the state the script builds when it is loaded and in the state
    after every [updateViewportState], the six booleans are what the
    thresholds 576, 992, 1200 and 1920 make of the width, exactly one of
    the five categories mobile, tablet, small desktop, large desktop below
    4K and 4K holds, and [isDesktop] is the disjunction of [isSmallDesktop]
    and [isLargeDesktop], so it is true whenever one of them is. *)
Theorem C7_one_category :
  (∀ wn p,
     let st := viewportState (loadScript wn p) in
     breakpointsOfState st = breakpointsOfWidth (innerWidth wn) ∧
     count_true (categories st) = 1%nat ∧
     isDesktop st = isSmallDesktop st || isLargeDesktop st) ∧
  (∀ w h wd,
     let st := viewportState (updateViewportState w h wd) in
     breakpointsOfState st = breakpointsOfWidth w ∧
     count_true (categories st) = 1%nat ∧
     isDesktop st = isSmallDesktop st || isLargeDesktop st).
Proof.
  split.
  - intros wn p.
    exact (categories_of_width (innerWidth wn) (innerHeight wn) (initialViewportState wn)).
  - intros w h wd. rewrite updateViewportState_state. apply categories_of_width.
Qed.

Lemma md_branch st :
  getViewportName st = "md" ↔
  is4K st = false ∧ isLargeDesktop st = false ∧ isSmallDesktop st = false ∧
  isDesktop st = true.
Proof.
  unfold getViewportName.
  destruct (is4K st), (isLargeDesktop st), (isSmallDesktop st), (isDesktop st),
    (isTablet st); split; try discriminate; try tauto;
    intros (? & ? & ? & ?); discriminate.
Qed.

(** C9: on the state built at load time and on the state after every
    [updateViewportState], [getViewportName] is never "md" and lies in
    xs, sm, lg, xl, 4k: the "md" branch needs [isDesktop] without
    [isSmallDesktop] and [isLargeDesktop], and [isDesktop] there implies
    one of the two. *)
Theorem C9_md_unreachable :
  (∀ st, getViewportName st = "md" ↔
         is4K st = false ∧ isLargeDesktop st = false ∧ isSmallDesktop st = false ∧
         isDesktop st = true) ∧
  (∀ wn p,
     let st := viewportState (loadScript wn p) in
     (isDesktop st = true → isSmallDesktop st = true ∨ isLargeDesktop st = true) ∧
     getViewportName st ≠ "md" ∧
     getViewportName st ∈ ["xs"; "sm"; "lg"; "xl"; "4k"]) ∧
  (∀ w h wd,
     let st := viewportState (updateViewportState w h wd) in
     (isDesktop st = true → isSmallDesktop st = true ∨ isLargeDesktop st = true) ∧
     getViewportName st ≠ "md" ∧
     getViewportName st ∈ ["xs"; "sm"; "lg"; "xl"; "4k"]).
Proof.
  assert (Hw : ∀ w h st0,
     let st := setViewportSize w h st0 in
     (isDesktop st = true → isSmallDesktop st = true ∨ isLargeDesktop st = true) ∧
     getViewportName st ≠ "md" ∧
     getViewportName st ∈ ["xs"; "sm"; "lg"; "xl"; "4k"]).
  { intros w h st0 st. split; [|split].
    - destruct (categories_of_width w h st0) as (_ & _ & Hd). fold st in Hd.
      rewrite Hd. destruct (isSmallDesktop st); simpl; auto.
    - subst st. rewrite name_of_width.
      destruct (w <? 576), (w <? 992), (w <? 1200), (w <? 1920); discriminate.
    - subst st. rewrite name_of_width.
      destruct (w <? 576), (w <? 992), (w <? 1200), (w <? 1920); set_solver. }
  split; [exact md_branch|split].
  - intros wn p.
    exact (Hw (innerWidth wn) (innerHeight wn) (initialViewportState wn)).
  - intros w h wd. rewrite updateViewportState_state. apply Hw.
Qed.

Lemma C9_witness :
  isSmallDesktop (viewportState (updateViewportState 1000 700 (loadScript sampleWindow
     {| dom := []; Chart_instances := None; echarts := None |}))) = true ∨
  isLargeDesktop (viewportState (updateViewportState 1000 700 (loadScript sampleWindow
     {| dom := []; Chart_instances := None; echarts := None |}))) = true.
Proof.
  apply (proj1 (proj2 (proj2 C9_md_unreachable) 1000 700 (loadScript sampleWindow
     {| dom := []; Chart_instances := None; echarts := None |}))).
  reflexivity.
Defined.

(** ** The adjustment pass *)

Lemma alike_refl e : alike e e.
Proof. repeat split. Qed.

Lemma alike_trans e1 e2 e3 : alike e1 e2 → alike e2 e3 → alike e1 e3.
Proof.
  intros (? & ? & ? & Hc1) (? & ? & ? & Hc2). repeat split; try congruence.
  intros c Hc. rewrite Hc1, Hc2; auto.
Qed.

Lemma alike_setStyle p v e : alike e (setStyle p v e).
Proof. repeat split. Qed.

Lemma token_contains_add c x l :
  c ≠ x → token_contains c (token_add x l) = token_contains c l.
Proof.
  intros Hne. unfold token_contains, token_add. case_decide; [done|].
  apply bool_decide_ext. rewrite elem_of_app, list_elem_of_singleton. tauto.
Qed.

Lemma token_contains_remove c x l :
  c ≠ x → token_contains c (token_remove x l) = token_contains c l.
Proof.
  intros Hne. unfold token_contains, token_remove.
  apply bool_decide_ext. rewrite list_elem_of_filter. tauto.
Qed.

Lemma alike_classList_add e : alike e (classList_add "modal-dialog-scrollable" e).
Proof.
  repeat split. intros c Hc. simpl. symmetry. by apply token_contains_add.
Qed.

Lemma alike_classList_remove e : alike e (classList_remove ["modal-dialog-scrollable"] e).
Proof.
  repeat split. intros c Hc. simpl. symmetry. by apply token_contains_remove.
Qed.

Lemma matchesSel_alike sel e e' :
  plainSel sel = true → alike e e' → matchesSel sel e = matchesSel sel e'.
Proof.
  intros Hsel (_ & _ & _ & Hc). unfold matchesSel, plainSel in *.
  induction sel as [|conj sel IH]; simpl in *; [done|].
  apply andb_prop in Hsel as [Hconj Hsel]. rewrite IH by done. f_equal.
  clear IH Hsel. induction conj as [|c conj IH]; simpl in *; [done|].
  apply andb_prop in Hconj as [Hc1 Hconj]. rewrite IH by done. f_equal.
  destruct c; simpl in *; try discriminate.
  apply Hc. intros ->. by rewrite bool_decide_true in Hc1.
Qed.

Lemma selectFrom_alike sel i d d' :
  plainSel sel = true → Forall2 alike d d' → selectFrom sel i d = selectFrom sel i d'.
Proof.
  intros Hsel H. revert i. induction H as [|e e' d d' He _ IH]; intros i; simpl; [done|].
  rewrite (matchesSel_alike sel e e') by done. by rewrite IH.
Qed.

Lemma closestFrom_alike fuel sel d d' i :
  plainSel sel = true → Forall2 alike d d' →
  closestFrom fuel sel d i = closestFrom fuel sel d' i.
Proof.
  intros Hsel H. revert i. induction fuel as [|fuel IH]; intros i; simpl; [done|].
  destruct (d !! i) as [e|] eqn:He.
  - destruct (Forall2_lookup_l _ _ _ _ _ H He) as (e' & -> & Hee').
    rewrite (matchesSel_alike sel e e') by done.
    destruct Hee' as (_ & _ & <- & _). destruct (matchesSel sel e'); [done|].
    destruct (parentIndex e); [apply IH|done].
  - apply (Forall2_length) in H as Hlen.
    apply lookup_ge_None in He. rewrite (proj2 (lookup_ge_None d' i)); [done|lia].
Qed.

Lemma closest_alike sel d d' i :
  plainSel sel = true → Forall2 alike d d' → closest sel d i = closest sel d' i.
Proof.
  intros Hsel H. unfold closest. rewrite (Forall2_length _ _ _ H).
  by apply closestFrom_alike.
Qed.

(** The fuel of [closest] is enough: in a document in document order the
    search from element [i] needs [i + 1] steps at most. *)
Lemma closestFrom_enough sel (d : DOM) :
  documentOrder d →
  ∀ i fuel, (i < fuel)%nat → closestFrom fuel sel d i = closestFrom (S i) sel d i.
Proof.
  intros Hd i. induction i as [i IH] using lt_wf_ind. intros fuel Hlt.
  destruct fuel as [|fuel]; [lia|]. simpl.
  destruct (d !! i) as [e|] eqn:He; [|done].
  destruct (matchesSel sel e); [done|].
  destruct (parentIndex e) as [p|] eqn:Hp; [|done].
  assert (Hpi : (p < i)%nat) by eauto.
  rewrite (IH p Hpi fuel) by lia. by rewrite (IH p Hpi i) by lia.
Qed.

Lemma closest_enough sel (d : DOM) i :
  documentOrder d → (i < length d)%nat →
  closest sel d i = closestFrom (S i) sel d i.
Proof. intros Hd Hi. unfold closest. by apply closestFrom_enough. Qed.

Lemma alike_dom_refl d : Forall2 alike d d.
Proof. induction d; constructor; auto using alike_refl. Qed.

Lemma alike_dom_trans d1 d2 d3 :
  Forall2 alike d1 d2 → Forall2 alike d2 d3 → Forall2 alike d1 d3.
Proof.
  intros H. revert d3. induction H; intros d3 H3; inversion H3; subst; constructor;
    eauto using alike_trans.
Qed.

Lemma alike_alter f i d :
  (∀ e, alike e (f e)) → Forall2 alike d (alter f i d).
Proof.
  intros Hf. revert i. induction d as [|e d IH]; intros [|i]; simpl;
    try constructor; auto using alike_refl, alike_dom_refl.
  apply IH.
Qed.

Lemma alike_forEachElement f nodes d :
  (∀ e, alike e (f e)) → Forall2 alike d (forEachElement f nodes d).
Proof.
  intros Hf. unfold forEachElement. revert d.
  induction nodes as [|n nodes IH]; intros d; simpl; [apply alike_dom_refl|].
  eapply alike_dom_trans; [by apply alike_alter|apply IH].
Qed.

(** Where a loop of idempotent writes leaves each element. *)
Lemma forEachElement_lookup f nodes d i :
  (∀ e, f (f e) = f e) →
  forEachElement f nodes d !! i = (if decide (i ∈ nodes) then f else id) <$> d !! i.
Proof.
  intros Hf. unfold forEachElement. revert d.
  induction nodes as [|n nodes IH]; intros d; simpl.
  - destruct (decide (i ∈ [])) as [H|_]; [by apply elem_of_nil in H|].
    by destruct (d !! i).
  - rewrite IH. destruct (decide (i = n)) as [->|Hne].
    + rewrite list_lookup_alter_eq.
      destruct (decide (n ∈ n :: nodes)) as [_|H]; [|exfalso; apply H; left].
      destruct (d !! n); simpl; [|done]. destruct (decide (n ∈ nodes)); by rewrite ?Hf.
    + rewrite list_lookup_alter_ne by done.
      destruct (d !! i); simpl; [|done].
      destruct (decide (i ∈ nodes)) as [Hin|Hin], (decide (i ∈ n :: nodes)) as [Hin'|Hin'];
        try done.
      * exfalso. apply Hin'. by right.
      * apply elem_of_cons in Hin' as [->|Hin']; done.
Qed.

Lemma token_add_idem c l : token_add c (token_add c l) = token_add c l.
Proof.
  unfold token_add. destruct (decide (c ∈ l)) as [Hin|Hin].
  - by rewrite decide_True.
  - rewrite decide_True; [done|]. apply elem_of_app. right. by left.
Qed.

Lemma token_remove_idem c l : token_remove c (token_remove c l) = token_remove c l.
Proof.
  unfold token_remove. induction l as [|x l IH]; [done|].
  rewrite (filter_cons _ x l). destruct (decide (x ≠ c)); [|done].
  rewrite filter_cons. rewrite decide_True by done. by rewrite IH.
Qed.

(** What the four writes, each made or not, leave of an element does not
    change when they are made again. *)
Lemma writes_idem st (b1 b2 b3 b4 : bool) e :
  let h e :=
    (if b4 then modalStyle st else id)
      ((if b3 then tableStyle st else id)
         ((if b2 then chartStyle st else id)
            ((if b1 then logoStyle st else id) e))) in
  h (h e) = h e.
Proof.
  destruct e as [tg cl at_ pa [s1 s2 s3 s4 s5 s6 s7]].
  unfold logoStyle, chartStyle, tableStyle, modalStyle.
  destruct b1, b2, b3, b4, (isMobile st), (isTablet st);
    cbv [logoStyle chartStyle tableStyle modalStyle setStyle classList_add
         classList_remove withClassList setProperty id foldl tagName classList
         attributes parentIndex style maxHeight fontSize minHeight minWidth margin
         animationPlayState webkitOverflowScrolling];
    rewrite ?token_add_idem, ?token_remove_idem; reflexivity.
Qed.

Lemma logoStyle_idem st e : logoStyle st (logoStyle st e) = logoStyle st e.
Proof. exact (writes_idem st true false false false e). Qed.
Lemma chartStyle_idem st e : chartStyle st (chartStyle st e) = chartStyle st e.
Proof. exact (writes_idem st false true false false e). Qed.
Lemma tableStyle_idem st e : tableStyle st (tableStyle st e) = tableStyle st e.
Proof. exact (writes_idem st false false true false e). Qed.
Lemma modalStyle_idem st e : modalStyle st (modalStyle st e) = modalStyle st e.
Proof. exact (writes_idem st false false false true e). Qed.

Lemma alike_logoStyle st e : alike e (logoStyle st e).
Proof. unfold logoStyle. repeat case_match; apply alike_setStyle. Qed.
Lemma alike_chartStyle st e : alike e (chartStyle st e).
Proof. unfold chartStyle. repeat case_match; apply alike_setStyle. Qed.
Lemma alike_tableStyle st e : alike e (tableStyle st e).
Proof. unfold tableStyle. repeat case_match; apply alike_setStyle. Qed.
Lemma alike_modalStyle st e : alike e (modalStyle st e).
Proof.
  unfold modalStyle. case_match.
  - eapply alike_trans; [apply alike_classList_add|apply alike_setStyle].
  - eapply alike_trans; [apply alike_classList_remove|apply alike_setStyle].
Qed.

Create HintDb pass discriminated.
#[local] Hint Resolve alike_logoStyle alike_chartStyle alike_tableStyle alike_modalStyle
  alike_forEachElement alike_dom_refl alike_alter : pass.

(** Each procedure is a loop of its write over the elements it reaches. *)
Lemma adjustNavbarLogo_loop st d :
  adjustNavbarLogo st d = forEachElement (logoStyle st) (logoNodes d) d.
Proof.
  unfold adjustNavbarLogo, logoNodes, logoStyle, forEachElement.
  destruct (querySelector (cls "ubc-logo") d),
    (querySelector (cls "ubc-facilities-logo") d), (isMobile st), (isTablet st);
    reflexivity.
Qed.

Lemma adjustChartSizes_loop st d :
  adjustChartSizes st d = forEachElement (chartStyle st) (chartNodes d) d.
Proof. reflexivity. Qed.

Lemma handleModalResponsiveness_loop st d :
  handleModalResponsiveness st d = forEachElement (modalStyle st) (modalNodes d) d.
Proof. reflexivity. Qed.

Lemma containerOf_alike d d' t :
  Forall2 alike d d' → containerOf d t = containerOf d' t.
Proof.
  intros H. unfold containerOf.
  by rewrite (closest_alike (cls "table-responsive") d d'),
    (closest_alike (cls "asset-table-container") d d').
Qed.

Lemma adjustTableDisplay_loop st d :
  adjustTableDisplay st d = forEachElement (tableStyle st) (containerNodes d) d.
Proof.
  unfold adjustTableDisplay, containerNodes, forEachElement.
  generalize (querySelectorAll (cls "asset-table") d) as tables.
  assert (Hgen : ∀ tables d',
    Forall2 alike d d' →
    foldl (λ d0 table,
             match ref_or (closest (cls "table-responsive") d0 table)
                          (closest (cls "asset-table-container") d0 table) with
             | Some c => if isMobile st then alter (setStyle FontSize "0.85rem") c d0
                         else alter (setStyle FontSize "1rem") c d0
             | None => d0
             end) d' tables =
    foldl (λ d0 i, alter (tableStyle st) i d0) d' (omap (containerOf d) tables)).
  { induction tables as [|t tables IH]; intros d' Hd'; simpl; [done|].
    fold (containerOf d' t). rewrite <- (containerOf_alike d d' t) by done.
    destruct (containerOf d t) as [c|]; simpl; [|by apply IH].
    replace (if isMobile st then alter (setStyle FontSize "0.85rem") c d'
             else alter (setStyle FontSize "1rem") c d')
      with (alter (tableStyle st) c d') by (unfold tableStyle; by destruct (isMobile st)).
    apply IH. eapply alike_dom_trans; [exact Hd'|]. auto with pass. }
  intros tables. apply Hgen. apply alike_dom_refl.
Qed.

Lemma nodes_alike d d' :
  Forall2 alike d d' →
  logoNodes d = logoNodes d' ∧ chartNodes d = chartNodes d' ∧
  containerNodes d = containerNodes d' ∧ modalNodes d = modalNodes d'.
Proof.
  intros H. unfold logoNodes, chartNodes, containerNodes, modalNodes, querySelector,
    querySelectorAll.
  rewrite (selectFrom_alike (cls "ubc-logo") 0 d d'),
    (selectFrom_alike (cls "ubc-facilities-logo") 0 d d'),
    (selectFrom_alike chartSelector 0 d d'),
    (selectFrom_alike (cls "asset-table") 0 d d'),
    (selectFrom_alike (cls "modal-dialog") 0 d d') by done.
  repeat split. apply list_omap_ext. apply Forall_Forall2_diag, Forall_forall.
  intros t _. by rewrite (containerOf_alike d d' t).
Qed.

Lemma adjustmentPass_passOn st d :
  adjustmentPass st d =
    passOn st (logoNodes d) (chartNodes d) (containerNodes d) (modalNodes d) d.
Proof.
  unfold adjustmentPass, passOn.
  rewrite handleModalResponsiveness_loop, adjustTableDisplay_loop,
    adjustChartSizes_loop, adjustNavbarLogo_loop.
  set (d1 := forEachElement (logoStyle st) (logoNodes d) d).
  assert (H1 : Forall2 alike d d1) by (subst d1; auto with pass).
  destruct (nodes_alike d d1 H1) as (_ & <- & _ & _).
  set (d2 := forEachElement (chartStyle st) (chartNodes d) d1).
  assert (H2 : Forall2 alike d d2).
  { eapply alike_dom_trans; [exact H1|]. subst d2. auto with pass. }
  destruct (nodes_alike d d2 H2) as (_ & _ & <- & _).
  set (d3 := forEachElement (tableStyle st) (containerNodes d) d2).
  assert (H3 : Forall2 alike d d3).
  { eapply alike_dom_trans; [exact H2|]. subst d3. auto with pass. }
  destruct (nodes_alike d d3 H3) as (_ & _ & _ & <-). reflexivity.
Qed.

Lemma alike_passOn st l1 l2 l3 l4 d : Forall2 alike d (passOn st l1 l2 l3 l4 d).
Proof.
  unfold passOn.
  repeat (eapply alike_dom_trans; [|apply alike_forEachElement; auto with pass]).
  apply alike_dom_refl.
Qed.

Lemma passOn_lookup st l1 l2 l3 l4 d i :
  passOn st l1 l2 l3 l4 d !! i =
    (λ e, (if bool_decide (i ∈ l4) then modalStyle st else id)
            ((if bool_decide (i ∈ l3) then tableStyle st else id)
               ((if bool_decide (i ∈ l2) then chartStyle st else id)
                  ((if bool_decide (i ∈ l1) then logoStyle st else id) e)))) <$> d !! i.
Proof.
  unfold passOn.
  rewrite !forEachElement_lookup
    by auto using logoStyle_idem, chartStyle_idem, tableStyle_idem, modalStyle_idem.
  destruct (d !! i); simpl; [|done].
  repeat case_bool_decide; repeat case_decide; done.
Qed.

Lemma passOn_idem st l1 l2 l3 l4 d :
  passOn st l1 l2 l3 l4 (passOn st l1 l2 l3 l4 d) = passOn st l1 l2 l3 l4 d.
Proof.
  apply list_eq. intros i. rewrite !passOn_lookup.
  destruct (d !! i) as [e|]; simpl; [|done]. f_equal.
  apply (writes_idem st (bool_decide (i ∈ l1)) (bool_decide (i ∈ l2))
           (bool_decide (i ∈ l3)) (bool_decide (i ∈ l4)) e).
Qed.

Lemma adjustmentPass_idem st d :
  adjustmentPass st (adjustmentPass st d) = adjustmentPass st d.
Proof.
  rewrite (adjustmentPass_passOn st (adjustmentPass st d)).
  assert (H : Forall2 alike d (adjustmentPass st d)).
  { rewrite adjustmentPass_passOn. apply alike_passOn. }
  destruct (nodes_alike _ _ H) as (<- & <- & <- & <-).
  rewrite adjustmentPass_passOn. apply passOn_idem.
Qed.

Example adjustmentPass_sample :
  (λ e, (maxHeight (style e), fontSize (style e), margin (style e), classList e))
    <$> adjustmentPass (setViewportSize 500 700 sampleState) sampleDom =
  [ (None, None, None, []);
    (None, None, None, []);
    (Some "50px", None, None, ["ubc-logo"]);
    (None, Some "0.85rem", None, ["table-responsive"]);
    (None, None, None, ["asset-table"]);
    (Some "50vh", None, None, ["chart-container"; "ubc-facilities-logo"]);
    (None, None, Some "0.5rem", ["modal-dialog"; "modal-dialog-scrollable"]) ].
Proof. vm_compute. reflexivity. Qed.

(** C8: for every state and every document, running the adjustment pass
    again on the document it produced changes nothing (every style value,
    class list and attribute is the same), also through
    [applyResponsiveAdjustments]; and each of the four procedures, which
    are total functions on documents, leaves the document as it is when
    none of its selectors matches an element. *)
Theorem C8_pass_idempotent_and_safe :
  (∀ st d, adjustmentPass st (adjustmentPass st d) = adjustmentPass st d) ∧
  (∀ w, page (applyResponsiveAdjustments (applyResponsiveAdjustments w)) =
        page (applyResponsiveAdjustments w)) ∧
  (∀ st d,
     (querySelector (cls "ubc-logo") d = None →
      querySelector (cls "ubc-facilities-logo") d = None →
      adjustNavbarLogo st d = d) ∧
     (querySelectorAll chartSelector d = [] → adjustChartSizes st d = d) ∧
     (querySelectorAll (cls "asset-table") d = [] → adjustTableDisplay st d = d) ∧
     (querySelectorAll (cls "modal-dialog") d = [] → handleModalResponsiveness st d = d)).
Proof.
  split; [exact adjustmentPass_idem|split].
  - intros w. unfold applyResponsiveAdjustments, setPage, withDom; simpl.
    by rewrite adjustmentPass_idem.
  - intros st d. repeat split.
    + intros H1 H2. unfold adjustNavbarLogo. by rewrite H1, H2.
    + intros H. unfold adjustChartSizes. by rewrite H.
    + intros H. unfold adjustTableDisplay. by rewrite H.
    + intros H. unfold handleModalResponsiveness. by rewrite H.
Qed.

Lemma C8_witness :
  adjustNavbarLogo sampleState plainDom = plainDom ∧
  adjustChartSizes sampleState plainDom = plainDom ∧
  adjustTableDisplay sampleState plainDom = plainDom ∧
  handleModalResponsiveness sampleState plainDom = plainDom.
Proof.
  destruct (proj2 (proj2 C8_pass_idempotent_and_safe) sampleState plainDom)
    as (H1 & H2 & H3 & H4).
  split; [apply H1; reflexivity|].
  split; [apply H2; reflexivity|].
  split; [apply H3; reflexivity|apply H4; reflexivity].
Defined.

(** ** Notification *)

Lemma sameManager_refl w : sameManager w w.
Proof. repeat split. Qed.

Lemma sameManager_trans w1 w2 w3 :
  sameManager w1 w2 → sameManager w2 w3 → sameManager w1 w3.
Proof. unfold sameManager. intros (?&?&?&?&?) (?&?&?&?&?). repeat split; congruence. Qed.

Lemma afterListener_frame ev st w i cb :
  sameManager w (afterListener ev st w i cb) ∧
  journal (afterListener ev st w i cb) = journal w ++ [ActNotify i ev st].
Proof.
  unfold afterListener. destruct (invoke cb ev st _); repeat split.
Qed.

(** One pass of the loop body never throws. *)
Lemma notify_one ev st i cb w :
  try_catch (callListener i cb ev st)
    (λ e, lift (console_error "Error in responsive listener:" e)) w =
  Normal (afterListener ev st w i cb).
Proof.
  unfold try_catch, callListener, afterListener, lift.
  destruct (invoke cb ev st _); reflexivity.
Qed.

Lemma notify_loop ev st l i w :
  forEachFrom
    (λ i callback,
       try_catch (callListener i callback ev st)
         (λ e, lift (console_error "Error in responsive listener:" e))) i l w =
  Normal (foldl (λ w '(i, cb), afterListener ev st w i cb) w
                (imap (λ k cb, ((i + k)%nat, cb)) l)).
Proof.
  revert i w. induction l as [|cb l IH]; intros i w; simpl; [done|].
  unfold andThen. rewrite notify_one, IH. rewrite Nat.add_0_r. do 2 f_equal.
  apply imap_ext. intros k x _. simpl. f_equal. lia.
Qed.

Lemma triggerListeners_notified ev st w :
  triggerListeners ev st w = Normal (notified ev st w (length (listeners w))).
Proof.
  unfold triggerListeners, notified. rewrite notify_loop.
  rewrite firstn_all2 by (by rewrite length_imap). reflexivity.
Qed.

Lemma notified_frame ev st (pairs : list (nat * Callback)) (w : World) :
  let w' := foldl (λ w '(i, cb), afterListener ev st w i cb) w pairs in
  sameManager w w' ∧
  journal w' = journal w ++ ((λ '(i, _), ActNotify i ev st) <$> pairs).
Proof.
  revert w. induction pairs as [|[i cb] pairs IH]; intros w; simpl.
  - split; [apply sameManager_refl|by rewrite app_nil_r].
  - destruct (afterListener_frame ev st w i cb) as [Hs Hj].
    destruct (IH (afterListener ev st w i cb)) as [Hs' Hj'].
    split; [eapply sameManager_trans; eauto|].
    rewrite Hj', Hj, <- app_assoc. reflexivity.
Qed.

Lemma notified_journal ev st w n :
  (n ≤ length (listeners w))%nat →
  sameManager w (notified ev st w n) ∧
  journal (notified ev st w n) = journal w ++ notifications ev st n.
Proof.
  intros Hn. unfold notified.
  destruct (notified_frame ev st (take n (imap (λ i cb, (i, cb)) (listeners w))) w)
    as [Hs Hj].
  split; [exact Hs|]. rewrite Hj. f_equal. unfold notifications.
  apply list_eq. intros k. rewrite !list_lookup_fmap.
  destruct (decide (k < n)%nat) as [Hk|Hk].
  - rewrite lookup_take_lt by done. rewrite list_lookup_imap.
    destruct (lookup_lt_is_Some_2 (listeners w) k) as [cb Hcb]; [lia|].
    rewrite Hcb. simpl. by rewrite lookup_seq_lt.
  - rewrite lookup_take_ge by lia. simpl.
    by rewrite lookup_seq_ge by lia.
Qed.

Lemma notified_step ev st w n cb :
  listeners w !! n = Some cb →
  notified ev st w (S n) = afterListener ev st (notified ev st w n) n cb.
Proof.
  intros Hcb. unfold notified.
  rewrite (take_S_r _ n (n, cb)) by (by rewrite list_lookup_imap, Hcb).
  by rewrite foldl_app.
Qed.

(** C3: a notification never throws; it calls every registered callback
    once, in subscription order, with the event name and the state (the
    journal gains exactly these calls, and none of the manager's own data
    changes); each callback is called on the page its predecessors left,
    and when it throws, the error is logged, the page stays as the callback
    left it and the callbacks after it are still called; [subscribe]
    appends to the registry. *)
Theorem C3_notify_isolates_subscribers (ev : string) (st : ViewportState) (w : World) :
  (∃ w', triggerListeners ev st w = Normal w' ∧
         w' = notified ev st w (length (listeners w)) ∧
         sameManager w w' ∧
         journal w' = journal w ++ notifications ev st (length (listeners w))) ∧
  notified ev st w 0 = w ∧
  (∀ n cb, listeners w !! n = Some cb →
     notified ev st w (S n) = afterListener ev st (notified ev st w n) n cb) ∧
  (∀ n cb e p, listeners w !! n = Some cb →
     invoke cb ev st (page (notified ev st w n)) = Throw e p →
     console (notified ev st w (S n)) =
       console (notified ev st w n) ++ [LogError "Error in responsive listener:" e] ∧
     page (notified ev st w (S n)) = p ∧
     journal (notified ev st w (S n)) = journal w ++ notifications ev st (S n)) ∧
  (∀ cb, listeners (subscribe cb w) = listeners w ++ [cb]).
Proof.
  split; [|split; [|split; [|split]]].
  - eexists. split; [apply triggerListeners_notified|]. split; [done|].
    by apply notified_journal.
  - reflexivity.
  - apply notified_step.
  - intros n cb e p Hcb Hthrow.
    assert (Hn : (S n ≤ length (listeners w))%nat)
      by (apply lookup_lt_Some in Hcb; lia).
    split; [|split].
    + rewrite (notified_step _ _ _ _ _ Hcb). unfold afterListener.
      simpl in *. by rewrite Hthrow.
    + rewrite (notified_step _ _ _ _ _ Hcb). unfold afterListener.
      simpl in *. by rewrite Hthrow.
    + by apply notified_journal.
  - reflexivity.
Qed.

Lemma C3_witness :
  console (notified "resize" sampleState sampleWorld 1) =
    console (notified "resize" sampleState sampleWorld 0) ++
      [LogError "Error in responsive listener:" "boom"] ∧
  page (notified "resize" sampleState sampleWorld 1) =
    withDom (alter (classList_add "seen-by-first") 1%nat) samplePage ∧
  journal (notified "resize" sampleState sampleWorld 1) =
    journal sampleWorld ++ notifications "resize" sampleState 1.
Proof.
  apply (proj1 (proj2 (proj2 (proj2
           (C3_notify_isolates_subscribers "resize" sampleState sampleWorld))))
         0%nat throwingSubscriber "boom"
         (withDom (alter (classList_add "seen-by-first") 1%nat) samplePage)).
  - reflexivity.
  - reflexivity.
Defined.

(** The second subscriber runs although the first one threw. *)
Example notify_after_throw :
  ∃ w', triggerListeners "resize" sampleState sampleWorld = Normal w' ∧
        (classList <$> dom (page w') !! 1%nat) = Some ["seen-by-first"; "seen-by-second"] ∧
        console w' = [LogError "Error in responsive listener:" "boom"] ∧
        journal w' = [ActNotify 0 "resize" sampleState; ActNotify 1 "resize" sampleState].
Proof. eexists. split; [reflexivity|]. vm_compute. auto. Qed.

(** ** The event handlers *)

Lemma onResize_unchanged w :
  innerWidth (win w) = width (viewportState w) →
  innerHeight (win w) = height (viewportState w) →
  onResize w = Normal w.
Proof.
  intros Hw Hh. unfold onResize.
  by rewrite !bool_decide_true.
Qed.

Lemma onResize_changed w :
  innerWidth (win w) ≠ width (viewportState w) ∨
  innerHeight (win w) ≠ height (viewportState w) →
  let w1 := applyResponsiveAdjustments
              (updateViewportState (innerWidth (win w)) (innerHeight (win w)) w) in
  onResize w =
    Normal (notified "resize" (viewportState w1) w1 (length (listeners w1))).
Proof.
  intros Hne w1. unfold onResize.
  replace (negb (bool_decide (innerWidth (win w) = width (viewportState w)))
           || negb (bool_decide (innerHeight (win w) = height (viewportState w))))
    with true.
  - unfold andThen, lift. apply triggerListeners_notified.
  - symmetry. destruct Hne as [H|H];
      [rewrite (bool_decide_false _ H)|rewrite (bool_decide_false _ H)]; simpl;
      [done|apply orb_true_r].
Qed.

Lemma onResize_changed_effect w :
  innerWidth (win w) ≠ width (viewportState w) ∨
  innerHeight (win w) ≠ height (viewportState w) →
  ∃ w',
    onResize w = Normal w' ∧
    viewportState w' =
      setViewportSize (innerWidth (win w)) (innerHeight (win w)) (viewportState w) ∧
    width (viewportState w') = innerWidth (win w) ∧
    height (viewportState w') = innerHeight (win w) ∧
    breakpointsOfState (viewportState w') = breakpointsOfWidth (innerWidth (win w)) ∧
    listeners w' = listeners w ∧
    journal w' =
      journal w ++ [ActAdjust] ++
      notifications "resize" (viewportState w') (length (listeners w)) ∧
    let w1 := updateViewportState (innerWidth (win w)) (innerHeight (win w)) w in
    w' = notified "resize" (viewportState w1)
           (setPage (withDom (adjustmentPass (viewportState w1))) (record ActAdjust w1))
           (length (listeners w)).
Proof.
  intros Hne. eexists. split; [by apply onResize_changed|].
  set (w1 := applyResponsiveAdjustments
               (updateViewportState (innerWidth (win w)) (innerHeight (win w)) w)).
  destruct (notified_journal "resize" (viewportState w1) w1 (length (listeners w1)))
    as [(_ & Hst & Hl & _) Hj]; [done|].
  rewrite Hst, Hl, Hj.
  destruct (categories_of_width (innerWidth (win w)) (innerHeight (win w))
              (viewportState w)) as (Hb & _).
  repeat split; try done. simpl. by rewrite <- app_assoc.
Qed.

(** C4: when the window has the stored width and height, [onResize]
    leaves the world as it is: no field of the state changes, the journal
    gains neither an adjustment pass nor a notification.  When one of them
    differs, the fields [updateViewportState] derives from the size (width,
    height and the six breakpoints) are set from the new size, one
    adjustment pass runs on the document, and then every subscriber is
    called exactly once with "resize" and the new state. *)
Theorem C4_onResize_guard (w : World) :
  (innerWidth (win w) = width (viewportState w) →
   innerHeight (win w) = height (viewportState w) →
   onResize w = Normal w) ∧
  (innerWidth (win w) ≠ width (viewportState w) ∨
   innerHeight (win w) ≠ height (viewportState w) →
   ∃ w',
     onResize w = Normal w' ∧
     viewportState w' =
       setViewportSize (innerWidth (win w)) (innerHeight (win w)) (viewportState w) ∧
     width (viewportState w') = innerWidth (win w) ∧
     height (viewportState w') = innerHeight (win w) ∧
     breakpointsOfState (viewportState w') = breakpointsOfWidth (innerWidth (win w)) ∧
     listeners w' = listeners w ∧
     journal w' =
       journal w ++ [ActAdjust] ++
       notifications "resize" (viewportState w') (length (listeners w)) ∧
     let w1 := updateViewportState (innerWidth (win w)) (innerHeight (win w)) w in
     w' = notified "resize" (viewportState w1)
            (setPage (withDom (adjustmentPass (viewportState w1))) (record ActAdjust w1))
            (length (listeners w))).
Proof.
  split; [apply onResize_unchanged|apply onResize_changed_effect].
Qed.

Lemma C4_witness :
  onResize sampleWorld = Normal sampleWorld ∧
  ∃ w', onResize narrowedWorld = Normal w' ∧
        isMobile (viewportState w') = true ∧
        journal w' = [ActAdjust; ActNotify 0 "resize" (viewportState w');
                      ActNotify 1 "resize" (viewportState w')].
Proof.
  split.
  - apply (proj1 (C4_onResize_guard sampleWorld)); reflexivity.
  - destruct (proj2 (C4_onResize_guard narrowedWorld)) as (w' & Hrun & Hst & _ & _ & _ & _ & Hj & _).
    + left. vm_compute. discriminate.
    + exists w'. split; [exact Hrun|]. split; [by rewrite Hst|].
      rewrite Hj, Hst. reflexivity.
Defined.

(** ** Start-up and double registration *)

Lemma init_effect w :
  registry (init w) = registry w ++ initHandlers (length (closures w)) ∧
  closures (init w) = closures w ++ [(MOnZoomChange, 500%nat, newClosure 0)] ∧
  listeners (init w) = listeners w ∧
  win (init w) = win w ∧
  initRuns (init w) = S (initRuns w).
Proof.
  unfold init, initRuns; simpl. rewrite <- !app_assoc; simpl.
  repeat split. rewrite List.filter_app, length_app. simpl. lia.
Qed.

Lemma TouchManager_init_frame w :
  registry (TouchManager_init w) = registry w ∧
  closures (TouchManager_init w) = closures w ∧
  listeners (TouchManager_init w) = listeners w ∧
  initRuns (TouchManager_init w) = initRuns w.
Proof. unfold TouchManager_init. destruct (isTouch _); repeat split. Qed.

Lemma PerformanceMonitor_init_frame w :
  registry (PerformanceMonitor_init w) = registry w ∧
  closures (PerformanceMonitor_init w) = closures w ∧
  listeners (PerformanceMonitor_init w) = listeners w ++ [CbPerformanceMonitor] ∧
  initRuns (PerformanceMonitor_init w) = initRuns w.
Proof.
  unfold PerformanceMonitor_init, initRuns.
  repeat case_match; simpl; repeat split;
    rewrite ?List.filter_app, ?length_app; simpl; lia.
Qed.

Lemma ImageOptimizer_init_frame w :
  registry (ImageOptimizer_init w) = registry w ∧
  closures (ImageOptimizer_init w) = closures w ∧
  listeners (ImageOptimizer_init w) = listeners w ∧
  initRuns (ImageOptimizer_init w) = initRuns w.
Proof.
  unfold ImageOptimizer_init, setupLazyLoading. case_match; repeat split.
Qed.

Lemma setPage_registry f w : registry (setPage f w) = registry w.
Proof. reflexivity. Qed.
Lemma setPage_closures f w : closures (setPage f w) = closures w.
Proof. reflexivity. Qed.
Lemma setPage_listeners f w : listeners (setPage f w) = listeners w.
Proof. reflexivity. Qed.
Lemma setPage_initRuns f w : initRuns (setPage f w) = initRuns w.
Proof. reflexivity. Qed.

Lemma handle_startup1 w :
  handle HStartup1 w =
    Normal (console_log "Responsive Design System Loaded"
              (ImageOptimizer_init (PerformanceMonitor_init (TouchManager_init (init w))))).
Proof. reflexivity. Qed.

Lemma handle_startup2 w :
  handle HStartup2 w =
    Normal (setPage (withDom (enhanceFormResponsiveness (viewportState (init w)))) (init w)).
Proof. reflexivity. Qed.

Lemma startup_run w0 :
  registry w0 = [("DOMContentLoaded", HStartup1); ("DOMContentLoaded", HStartup2)] →
  startup w0 =
    let w5 := console_log "Responsive Design System Loaded"
                (ImageOptimizer_init (PerformanceMonitor_init
                   (TouchManager_init (init w0)))) in
    setPage (withDom (enhanceFormResponsiveness (viewportState (init w5)))) (init w5).
Proof.
  intros Hreg. unfold startup, dispatchEvent, listenersFor. rewrite Hreg.
  change ((filter (λ r : string * Handler, r.1 = "DOMContentLoaded")
             [("DOMContentLoaded", HStartup1); ("DOMContentLoaded", HStartup2)]).*2)
    with [HStartup1; HStartup2].
  cbn [foldl]. rewrite handle_startup1, handle_startup2. reflexivity.
Qed.

Lemma startup_effect w0 :
  registry w0 = [("DOMContentLoaded", HStartup1); ("DOMContentLoaded", HStartup2)] →
  let w := startup w0 in
  registry w = registry w0 ++ initHandlers (length (closures w0))
                 ++ initHandlers (S (length (closures w0))) ∧
  closures w = closures w0 ++ [(MOnZoomChange, 500%nat, newClosure 0);
                               (MOnZoomChange, 500%nat, newClosure 0)] ∧
  listeners w = listeners w0 ++ [CbPerformanceMonitor] ∧
  initRuns w = S (S (initRuns w0)).
Proof.
  intros Hreg w. subst w. rewrite (startup_run w0 Hreg). cbv zeta.
  set (w1 := init w0).
  set (w2 := TouchManager_init w1).
  set (w3 := PerformanceMonitor_init w2).
  set (w4 := ImageOptimizer_init w3).
  set (w5 := console_log "Responsive Design System Loaded" w4).
  set (w6 := init w5).
  destruct (init_effect w0) as (R1 & C1 & L1 & _ & I1).
  destruct (TouchManager_init_frame w1) as (R2 & C2 & L2 & I2).
  destruct (PerformanceMonitor_init_frame w2) as (R3 & C3 & L3 & I3).
  destruct (ImageOptimizer_init_frame w3) as (R4 & C4 & L4 & I4).
  assert (R5 : registry w5 = registry w4) by reflexivity.
  assert (C5 : closures w5 = closures w4) by reflexivity.
  assert (L5 : listeners w5 = listeners w4) by reflexivity.
  assert (I5 : initRuns w5 = initRuns w4).
  { unfold w5, initRuns, console_log, setConsole. cbn [console].
    rewrite List.filter_app, length_app.
    change (List.filter isInitLog [LogInfo "Responsive Design System Loaded"])
      with (@nil LogEntry).
    cbn [length]. lia. }
  destruct (init_effect w5) as (R6 & C6 & L6 & _ & I6).
  fold w1 w2 w3 w4 w6 in R1, C1, L1, I1, R2, C2, L2, I2, R3, C3, L3, I3,
    R4, C4, L4, I4, R6, C6, L6, I6.
  rewrite setPage_registry, setPage_closures, setPage_listeners, setPage_initRuns.
  rewrite R6, C6, L6, I6, R5, C5, L5, I5, R4, C4, L4, I4, R3, C3, L3, I3,
    R2, C2, L2, I2, R1, C1, L1, I1.
  rewrite length_app, <- !app_assoc. cbn [length app].
  replace (length (closures w0) + 1)%nat with (S (length (closures w0))) by lia.
  repeat split.
Qed.

Lemma adjusted_frame nw nh w :
  sameManagerBut w (applyResponsiveAdjustments (updateViewportState nw nh w)) ∧
  viewportState (applyResponsiveAdjustments (updateViewportState nw nh w)) =
    setViewportSize nw nh (viewportState w).
Proof. repeat split. Qed.

(** After [onResize] the stored size is the size of the window. *)
Lemma onResize_settles w :
  ∃ w1, onResize w = Normal w1 ∧ sameManagerBut w w1 ∧
        width (viewportState w1) = innerWidth (win w1) ∧
        height (viewportState w1) = innerHeight (win w1).
Proof.
  destruct (decide (innerWidth (win w) = width (viewportState w) ∧
                    innerHeight (win w) = height (viewportState w))) as [[Hw Hh]|Hne].
  - exists w. split; [by apply onResize_unchanged|]. repeat split; done.
  - assert (Hne' : innerWidth (win w) ≠ width (viewportState w) ∨
                   innerHeight (win w) ≠ height (viewportState w)).
    { destruct (decide (innerWidth (win w) = width (viewportState w))); [|by left].
      right. intros ?. by apply Hne. }
    eexists. split; [by apply onResize_changed|].
    set (w1 := applyResponsiveAdjustments _).
    destruct (adjusted_frame (innerWidth (win w)) (innerHeight (win w)) w)
      as [(Hwin & Hl & Hr & Hc) Hst]. fold w1 in Hwin, Hl, Hr, Hc, Hst.
    destruct (notified_journal "resize" (viewportState w1) w1 (length (listeners w1)))
      as [(Hwin' & Hst' & Hl' & Hr' & Hc') _]; [done|].
    split; [|split].
    + repeat split; congruence.
    + rewrite Hst', Hwin', Hst, Hwin. reflexivity.
    + rewrite Hst', Hwin', Hst, Hwin. reflexivity.
Qed.

Lemma sameManager_but w w' : sameManager w w' → sameManagerBut w w'.
Proof. intros (?&?&?&?&?). repeat split; done. Qed.

Lemma sameManagerBut_trans w1 w2 w3 :
  sameManagerBut w1 w2 → sameManagerBut w2 w3 → sameManagerBut w1 w3.
Proof. unfold sameManagerBut. intros (?&?&?&?) (?&?&?&?). repeat split; congruence. Qed.

Lemma triggerListeners_effect ev w :
  ∃ w1, triggerListeners ev (viewportState w) w = Normal w1 ∧ sameManager w w1 ∧
        journal w1 = journal w ++ notifications ev (viewportState w) (length (listeners w)).
Proof.
  eexists. split; [apply triggerListeners_notified|]. by apply notified_journal.
Qed.

Lemma onResize_again w w1 : onResize w = Normal w1 → onResize w1 = Normal w1.
Proof.
  intros Hrun. destruct (onResize_settles w) as (w1' & Hrun' & _ & Hw & Hh).
  rewrite Hrun in Hrun'. injection Hrun' as <-. by apply onResize_unchanged.
Qed.

Lemma onOrientationChange_settles w :
  ∃ w1, onOrientationChange w = Normal w1 ∧ sameManagerBut w w1 ∧
        orientation (viewportState w1) =
          orientationOf (innerWidth (win w1)) (innerHeight (win w1)).
Proof.
  unfold onOrientationChange.
  destruct (decide (orientationOf (innerWidth (win w)) (innerHeight (win w)) =
                    orientation (viewportState w))) as [Heq|Hne].
  - rewrite (bool_decide_true _ Heq). simpl. exists w. repeat split; done.
  - rewrite (bool_decide_false _ Hne). simpl. unfold andThen, lift.
    set (w0 := onDocumentElement _ _).
    destruct (triggerListeners_effect "orientationchange" w0)
      as (w1 & Hrun & (Hwin & Hst & Hl & Hr & Hc) & _).
    exists w1. split; [exact Hrun|]. split.
    + repeat split; [by rewrite Hwin|by rewrite Hl|by rewrite Hr|by rewrite Hc].
    + by rewrite Hst, Hwin.
Qed.

Lemma onOrientationChange_again w w1 :
  onOrientationChange w = Normal w1 → onOrientationChange w1 = Normal w1.
Proof.
  intros Hrun. destruct (onOrientationChange_settles w) as (w1' & Hrun' & _ & Ho).
  rewrite Hrun in Hrun'. injection Hrun' as <-.
  unfold onOrientationChange. by rewrite (bool_decide_true _ (eq_sym Ho)).
Qed.

Lemma onZoomChange_settles w :
  ∃ w1, onZoomChange w = Normal w1 ∧ sameManagerBut w w1 ∧
        zoomLevel (viewportState w1) = zoomOf (devicePixelRatio (win w1)).
Proof.
  unfold onZoomChange.
  destruct (decide (zoomOf (devicePixelRatio (win w)) = zoomLevel (viewportState w)))
    as [Heq|Hne].
  - rewrite (bool_decide_true _ Heq). simpl. exists w. repeat split; done.
  - rewrite (bool_decide_false _ Hne). simpl. unfold andThen, lift.
    set (w0 := console_log _ _).
    destruct (triggerListeners_effect "zoom" w0)
      as (w1 & Hrun & (Hwin & Hst & Hl & Hr & Hc) & _).
    exists w1. split; [exact Hrun|]. split.
    + repeat split; [by rewrite Hwin|by rewrite Hl|by rewrite Hr|by rewrite Hc].
    + by rewrite Hst, Hwin.
Qed.

Lemma onZoomChange_again w w1 :
  onZoomChange w = Normal w1 → onZoomChange w1 = Normal w1.
Proof.
  intros Hrun. destruct (onZoomChange_settles w) as (w1' & Hrun' & _ & Hz).
  rewrite Hrun in Hrun'. injection Hrun' as <-.
  unfold onZoomChange. by rewrite (bool_decide_true _ (eq_sym Hz)).
Qed.

Lemma dispatch_two type m w w1 w2 :
  listenersFor type w = [HBound m; HBound m] →
  boundMethod m w = Normal w1 → boundMethod m w1 = Normal w2 →
  dispatchEvent type w = w2.
Proof.
  intros Hl H1 H2. unfold dispatchEvent. rewrite Hl. simpl. by rewrite H1, H2.
Qed.

Lemma onVisibilityChange_hidden w :
  hidden (win w) = true →
  ∃ w1, onVisibilityChange w = Normal w1 ∧ sameManager w w1 ∧
        journal w1 = journal w ++ notifications "hide" (viewportState w) (length (listeners w)).
Proof.
  intros Hh. unfold onVisibilityChange. rewrite Hh. apply triggerListeners_effect.
Qed.

Lemma onVisibilityChange_shown w :
  hidden (win w) = false →
  ∃ w1 w2, onResize w = Normal w1 ∧ onVisibilityChange w = Normal w2 ∧
           sameManager w1 w2 ∧ listeners w1 = listeners w ∧ win w1 = win w ∧
           journal w2 = journal w1 ++
             notifications "show" (viewportState w1) (length (listeners w)).
Proof.
  intros Hh. unfold onVisibilityChange. rewrite Hh. unfold andThen.
  destruct (onResize_settles w) as (w1 & Hrun & (Hwin & Hl & _) & _).
  rewrite Hrun.
  destruct (triggerListeners_effect "show" w1) as (w2 & Hrun2 & Hs & Hj).
  exists w1, w2. rewrite <- Hl. repeat split; try done; apply Hs.
Qed.

Lemma visibility_twice w :
  listenersFor "visibilitychange" w =
    [HBound MOnVisibilityChange; HBound MOnVisibilityChange] →
  let n := length (listeners w) in
  (hidden (win w) = true →
   journal (dispatchEvent "visibilitychange" w) =
     journal w ++ notifications "hide" (viewportState w) n
               ++ notifications "hide" (viewportState w) n) ∧
  (hidden (win w) = false →
   ∃ w1, onResize w = Normal w1 ∧
         journal (dispatchEvent "visibilitychange" w) =
           journal w1 ++ notifications "show" (viewportState w1) n
                      ++ notifications "show" (viewportState w1) n).
Proof.
  intros Hreg n. subst n. split; intros Hh.
  - destruct (onVisibilityChange_hidden w Hh) as (w1 & H1 & (Hwin & Hst & Hl & _) & Hj1).
    destruct (onVisibilityChange_hidden w1) as (w2 & H2 & _ & Hj2); [by rewrite Hwin|].
    rewrite (dispatch_two _ _ _ _ _ Hreg H1 H2).
    by rewrite Hj2, Hj1, Hst, Hl, <- app_assoc.
  - destruct (onVisibilityChange_shown w Hh)
      as (w1 & w2 & Hr1 & H1 & (Hwin & Hst & Hl & _) & Hl1 & Hwin1 & Hj1).
    destruct (onVisibilityChange_shown w2)
      as (w3 & w4 & Hr2 & H2 & _ & _ & _ & Hj2); [by rewrite Hwin, Hwin1|].
    assert (Hsame : w3 = w2).
    { assert (Hagain : onResize w2 = Normal w2).
      { destruct (onResize_settles w) as (w1' & Hr1' & _ & Hw & Hht).
        rewrite Hr1 in Hr1'. injection Hr1' as <-.
        apply onResize_unchanged; rewrite Hst, Hwin; done. }
      rewrite Hagain in Hr2. by injection Hr2. }
    subst w3. exists w1. split; [exact Hr1|].
    rewrite (dispatch_two _ _ _ _ _ Hreg H1 H2).
    by rewrite Hj2, Hj1, Hst, Hl, Hl1, <- app_assoc.
Qed.

Lemma startup_listeners w0 :
  registry w0 = [("DOMContentLoaded", HStartup1); ("DOMContentLoaded", HStartup2)] →
  let w := startup w0 in
  let k := length (closures w0) in
  listenersFor "resize" w = [HBound MOnResize; HBound MOnResize] ∧
  listenersFor "orientationchange" w =
    [HBound MOnOrientationChange; HBound MOnOrientationChange] ∧
  listenersFor "visibilitychange" w =
    [HBound MOnVisibilityChange; HBound MOnVisibilityChange] ∧
  listenersFor "wheel" w = [HDebounced k; HDebounced (S k)].
Proof.
  intros Hreg w k. destruct (startup_effect w0 Hreg) as (Hr & _).
  fold w in Hr. unfold listenersFor. rewrite Hr, Hreg. repeat split.
Qed.

(** C10: start-up runs [init] twice, once from each DOMContentLoaded
    listener, so each of resize, orientationchange, visibilitychange and
    the debounced wheel handler is registered twice (two closures of
    [debounce]); a second call of [onResize], [onOrientationChange] or
    [onZoomChange] right after the first changes nothing, so a resize or
    an orientation change dispatched to both listeners has the effect of
    one call; but a visibility change dispatched to both calls every
    subscriber twice with "hide", or twice with "show" after the resize
    check. *)
Theorem C10_double_registration :
  (∀ w0,
     registry w0 = [("DOMContentLoaded", HStartup1); ("DOMContentLoaded", HStartup2)] →
     let w := startup w0 in
     let k := length (closures w0) in
     initRuns w = S (S (initRuns w0)) ∧
     registry w = registry w0 ++ initHandlers k ++ initHandlers (S k) ∧
     closures w = closures w0 ++ [(MOnZoomChange, 500%nat, newClosure 0);
                                  (MOnZoomChange, 500%nat, newClosure 0)] ∧
     listenersFor "resize" w = [HBound MOnResize; HBound MOnResize] ∧
     listenersFor "orientationchange" w =
       [HBound MOnOrientationChange; HBound MOnOrientationChange] ∧
     listenersFor "visibilitychange" w =
       [HBound MOnVisibilityChange; HBound MOnVisibilityChange] ∧
     listenersFor "wheel" w = [HDebounced k; HDebounced (S k)]) ∧
  (∀ w,
     (∃ w1, onResize w = Normal w1 ∧ onResize w1 = Normal w1) ∧
     (∃ w1, onOrientationChange w = Normal w1 ∧ onOrientationChange w1 = Normal w1) ∧
     (∃ w1, onZoomChange w = Normal w1 ∧ onZoomChange w1 = Normal w1)) ∧
  (∀ w,
     (listenersFor "resize" w = [HBound MOnResize; HBound MOnResize] →
      dispatchEvent "resize" w = settle (onResize w)) ∧
     (listenersFor "orientationchange" w =
        [HBound MOnOrientationChange; HBound MOnOrientationChange] →
      dispatchEvent "orientationchange" w = settle (onOrientationChange w))) ∧
  (∀ w,
     listenersFor "visibilitychange" w =
       [HBound MOnVisibilityChange; HBound MOnVisibilityChange] →
     let n := length (listeners w) in
     (hidden (win w) = true →
      journal (dispatchEvent "visibilitychange" w) =
        journal w ++ notifications "hide" (viewportState w) n
                  ++ notifications "hide" (viewportState w) n) ∧
     (hidden (win w) = false →
      ∃ w1, onResize w = Normal w1 ∧
            journal (dispatchEvent "visibilitychange" w) =
              journal w1 ++ notifications "show" (viewportState w1) n
                         ++ notifications "show" (viewportState w1) n)).
Proof.
  split; [|split; [|split]].
  - intros w0 Hreg w k.
    destruct (startup_effect w0 Hreg) as (Hr & Hc & _ & Hi).
    destruct (startup_listeners w0 Hreg) as (H1 & H2 & H3 & H4).
    repeat split; assumption.
  - intros w. split; [|split].
    + destruct (onResize_settles w) as (w1 & Hrun & _).
      exists w1. split; [done|]. by apply (onResize_again w).
    + destruct (onOrientationChange_settles w) as (w1 & Hrun & _).
      exists w1. split; [done|]. by apply (onOrientationChange_again w).
    + destruct (onZoomChange_settles w) as (w1 & Hrun & _).
      exists w1. split; [done|]. by apply (onZoomChange_again w).
  - intros w. split; intros Hl.
    + destruct (onResize_settles w) as (w1 & Hrun & _).
      rewrite Hrun. simpl.
      apply (dispatch_two _ _ _ _ _ Hl Hrun). by apply (onResize_again w).
    + destruct (onOrientationChange_settles w) as (w1 & Hrun & _).
      rewrite Hrun. simpl.
      apply (dispatch_two _ _ _ _ _ Hl Hrun). by apply (onOrientationChange_again w).
  - apply visibility_twice.
Qed.

Lemma C10_witness :
  initRuns startedWorld = 2%nat ∧
  listenersFor "wheel" startedWorld = [HDebounced 0; HDebounced 1] ∧
  journal (dispatchEvent "visibilitychange" startedHiddenWorld) =
    journal startedHiddenWorld
      ++ notifications "hide" (viewportState startedHiddenWorld) 4
      ++ notifications "hide" (viewportState startedHiddenWorld) 4.
Proof.
  destruct C10_double_registration as (Hstart & _ & _ & Hvis).
  split; [|split].
  - apply (Hstart (loadScript sampleWindow samplePage)). reflexivity.
  - apply (Hstart (loadScript sampleWindow samplePage)). reflexivity.
  - apply (Hvis startedHiddenWorld).
    + apply (Hstart (loadScript hiddenWindow samplePage)). reflexivity.
    + reflexivity.
Defined.

(** ** Exceptions during start-up *)

Section StartupExceptions.
Variables RM_init TM_init PM_init IO_init enhanceForm : Cmd World.

(** The first listener never lets an exception out. *)
Lemma startupHandler1_completes w :
  completes (startupHandler1 RM_init TM_init PM_init IO_init w).
Proof.
  unfold completes, startupHandler1, try_catch, andThen, lift.
  destruct (RM_init w) as [w1|e w1]; [|eauto].
  destruct (TM_init w1) as [w2|e w2]; [|eauto].
  destruct (PM_init w2) as [w3|e w3]; [|eauto].
  destruct (IO_init w3) as [w4|e w4]; eauto.
Qed.

(** Whichever step throws, the error is logged on the state the step
    left and no later step runs. *)
Lemma startupHandler1_catches w :
  startupHandler1 RM_init TM_init PM_init IO_init w =
    match RM_init w with
    | Throw e w' => Normal (console_error "Error initializing Responsive Design System:" e w')
    | Normal w1 =>
        match TM_init w1 with
        | Throw e w' => Normal (console_error "Error initializing Responsive Design System:" e w')
        | Normal w2 =>
            match PM_init w2 with
            | Throw e w' => Normal (console_error "Error initializing Responsive Design System:" e w')
            | Normal w3 =>
                match IO_init w3 with
                | Throw e w' => Normal (console_error "Error initializing Responsive Design System:" e w')
                | Normal w4 =>
                    Normal (console_log "Responsive Design System Loaded" w4)
                end
            end
        end
    end.
Proof.
  unfold startupHandler1, try_catch, andThen, lift.
  destruct (RM_init w) as [w1|e w1]; [|done].
  destruct (TM_init w1) as [w2|e w2]; [|done].
  destruct (PM_init w2) as [w3|e w3]; [|done].
  destruct (IO_init w3) as [w4|e w4]; done.
Qed.

(** The second listener has no handler: what its steps throw leaves it. *)
Lemma startupHandler2_propagates w :
  startupHandler2 RM_init enhanceForm w =
    match RM_init w with
    | Throw e w' => Throw e w'
    | Normal w1 => enhanceForm w1
    end.
Proof. reflexivity. Qed.
End StartupExceptions.

(** C2: whatever the steps of start-up do, the first DOMContentLoaded
    listener completes: an exception thrown by any of its steps is caught
    there and logged, and the steps after it do not run.  The second
    DOMContentLoaded listener has no handler: an exception thrown by
    [init] or by [enhanceFormResponsiveness] there leaves the listener,
    the script logs nothing, and after a throw of [init] the form step
    does not run. *)
Theorem C2_startup_exceptions
    (RM_init TM_init PM_init IO_init enhanceForm : Cmd World) (w : World) :
  completes (startupHandler1 RM_init TM_init PM_init IO_init w) ∧
  (∀ e w', RM_init w = Throw e w' →
     startupHandler1 RM_init TM_init PM_init IO_init w =
       Normal (console_error "Error initializing Responsive Design System:" e w') ∧
     startupHandler2 RM_init enhanceForm w = Throw e w' ∧
     ¬ completes (startupHandler2 RM_init enhanceForm w)) ∧
  (∀ w1 e w', RM_init w = Normal w1 → TM_init w1 = Throw e w' →
     startupHandler1 RM_init TM_init PM_init IO_init w =
       Normal (console_error "Error initializing Responsive Design System:" e w')) ∧
  (∀ w1 w2 e w', RM_init w = Normal w1 → TM_init w1 = Normal w2 →
     PM_init w2 = Throw e w' →
     startupHandler1 RM_init TM_init PM_init IO_init w =
       Normal (console_error "Error initializing Responsive Design System:" e w')) ∧
  (∀ w1 w2 w3 e w', RM_init w = Normal w1 → TM_init w1 = Normal w2 →
     PM_init w2 = Normal w3 → IO_init w3 = Throw e w' →
     startupHandler1 RM_init TM_init PM_init IO_init w =
       Normal (console_error "Error initializing Responsive Design System:" e w')) ∧
  (∀ w1 e w', RM_init w = Normal w1 → enhanceForm w1 = Throw e w' →
     startupHandler2 RM_init enhanceForm w = Throw e w' ∧
     ¬ completes (startupHandler2 RM_init enhanceForm w)).
Proof.
  split; [apply startupHandler1_completes|].
  rewrite startupHandler1_catches, startupHandler2_propagates.
  split; [|split; [|split; [|split]]].
  - intros e w' H0. rewrite H0. repeat split. intros [x Hx]. discriminate Hx.
  - intros w1 e w' H0 H1. by rewrite H0, H1.
  - intros w1 w2 e w' H0 H1 H2. by rewrite H0, H1, H2.
  - intros w1 w2 w3 e w' H0 H1 H2 H3. by rewrite H0, H1, H2, H3.
  - intros w1 e w' H0 H1. rewrite H0, H1. split; [done|].
    intros [x Hx]. discriminate Hx.
Qed.

Lemma C2_witness :
  startupHandler1 failingStep (lift TouchManager_init) (lift PerformanceMonitor_init)
      (lift ImageOptimizer_init) sampleWorld =
    Normal (console_error "Error initializing Responsive Design System:" "TypeError"
              (console_log "ResponsiveManager initialized:" sampleWorld)) ∧
  startupHandler2 failingStep
      (lift (λ w, setPage (withDom (enhanceFormResponsiveness (viewportState w))) w))
      sampleWorld =
    Throw "TypeError" (console_log "ResponsiveManager initialized:" sampleWorld) ∧
  ¬ completes
      (startupHandler2 failingStep
         (lift (λ w, setPage (withDom (enhanceFormResponsiveness (viewportState w))) w))
         sampleWorld).
Proof.
  apply (C2_startup_exceptions failingStep). reflexivity.
Defined.

(** ** Debounce *)

Section DebounceFacts.
Context {A St : Type}.
Variable func : A → St → St.
Variable wait : nat.

(** A call leaves exactly one timer pending: its own, due [wait] later. *)
Lemma call_pending (a : A) (m : Debounced A St) :
  closure_ok (closure m) →
  closure (call wait a m) =
    {| timeout := Some (nextId (queue (closure m)));
       queue := {| clock := clock (queue (closure m));
                   nextId := S (nextId (queue (closure m)));
                   pending := [{| tid := nextId (queue (closure m));
                                  due := (clock (queue (closure m)) + wait)%nat;
                                  payload := a |}] |} |} ∧
  inner (call wait a m) = inner m ∧ fired (call wait a m) = fired m.
Proof.
  intros [_ Hp]. unfold call, executedFunction, setTimeout, clearTimeout.
  destruct m as [[to [clk nid pend]] s fr]; simpl in *.
  destruct Hp as [->|(t & -> & ->)]; simpl.
  - destruct to; repeat split.
  - rewrite filter_cons_False by (intros H; by apply H). repeat split.
Qed.

(** While the pending timer is not due, time passing only moves the clock. *)
Lemma elapse_early (dt : nat) (m : Debounced A St) (t : Timer A) :
  pending (queue (closure m)) = [t] →
  (clock (queue (closure m)) + dt < due t)%nat →
  elapse func dt m =
    {| closure := {| timeout := timeout (closure m);
                     queue := {| clock := (clock (queue (closure m)) + dt)%nat;
                                 nextId := nextId (queue (closure m));
                                 pending := [t] |} |};
       inner := inner m; fired := fired m |}.
Proof.
  intros Hp Hlt. unfold elapse. rewrite Hp. simpl.
  unfold nextDue. rewrite Hp. rewrite filter_cons_False by lia. simpl.
  unfold setClock. by rewrite Hp.
Qed.

(** Once it is due it runs: [func] gets its arguments, at its due time. *)
Lemma elapse_due (dt : nat) (m : Debounced A St) (t : Timer A) :
  pending (queue (closure m)) = [t] →
  timeout (closure m) = Some (tid t) →
  (clock (queue (closure m)) ≤ due t)%nat →
  (due t ≤ clock (queue (closure m)) + dt)%nat →
  elapse func dt m =
    {| closure := {| timeout := timeout (closure m);
                     queue := {| clock := (clock (queue (closure m)) + dt)%nat;
                                 nextId := nextId (queue (closure m));
                                 pending := [] |} |};
       inner := func (payload t) (inner m);
       fired := fired m ++ [(due t, payload t)] |}.
Proof.
  intros Hp Hto Hge Hle. unfold elapse. rewrite Hp. simpl.
  unfold nextDue. rewrite Hp. rewrite filter_cons_True by lia. simpl.
  unfold later, later_clear, expire, clearTimeout, setClock. simpl.
  rewrite Hto, Hp. rewrite filter_cons_False by (intros H; by apply H). simpl.
  rewrite Nat.max_r by lia. reflexivity.
Qed.

Lemma elapse_idle (dt : nat) (m : Debounced A St) :
  pending (queue (closure m)) = [] →
  elapse func dt m =
    {| closure := {| timeout := timeout (closure m);
                     queue := {| clock := (clock (queue (closure m)) + dt)%nat;
                                 nextId := nextId (queue (closure m));
                                 pending := [] |} |};
       inner := inner m; fired := fired m |}.
Proof.
  intros Hp. unfold elapse. rewrite Hp. simpl. unfold setClock. by rewrite Hp.
Qed.


Lemma run_app (m : Debounced A St) (i1 i2 : list (Input A St)) :
  run func wait m (i1 ++ i2) = run func wait (run func wait m i1) i2.
Proof. apply foldl_app. Qed.


End DebounceFacts.



(** Run on the sample burst: one check, 500 ms after the third event. *)
Example debounce_sample :
  let m := run zoomCheck 500 freshZoomDebounce
             (burst sampleBurst ++ [Call tt; Elapse 600]) in
  fired m = [(1099%nat, tt)] ∧
  zoomLevel (viewportState (inner m)) = 150 ∧
  console (inner m) = [LogInfo "Zoom level changed to:";
                       LogError "Error in responsive listener:" "boom"].
Proof. vm_compute. auto. Qed.

(** ** The whole script on the sample page *)

(** After start-up the document element carries the marker class and the
    viewport class and attributes of a 1000 pixel wide window. *)
Example startup_sample :
  (λ e, (classList e, attributes e !! "data-viewport", attributes e !! "data-touch"))
    <$> dom (page startedWorld) !! 0%nat =
    Some (["js-enabled"; "viewport-lg"], Some "lg", Some "false") ∧
  listeners startedWorld = [CbCharts; CbTables; CbForms; CbPerformanceMonitor] ∧
  console startedWorld =
    [LogInfo "ResponsiveManager initialized:";
     LogInfo "Responsive Design System Loaded";
     LogInfo "ResponsiveManager initialized:"].
Proof. vm_compute. auto. Qed.

(** A wheel event reaches both debounced handlers; 500 ms later both
    timers run, the first zoom check notifies the four subscribers and the
    second finds nothing to do. *)
Example wheel_sample :
  let w := elapseAll 500
             (dispatchEvent "wheel" (setDevicePixelRatio (3 # 2) startedWorld)) in
  zoomLevel (viewportState w) = 150 ∧
  List.filter (λ a, if a is ActNotify _ _ _ then true else false) (journal w) =
    notifications "zoom" (viewportState w) 4 ∧
  (λ '(_, _, c), pending (queue c)) <$> closures w = [[]; []].
Proof. vm_compute. auto. Qed.

(** * Further properties of the script *)

(** ** Selections *)

Lemma elem_of_selectFrom sel k (l : DOM) i :
  i ∈ selectFrom sel k l ↔
  (k ≤ i)%nat ∧ ∃ e, l !! (i - k)%nat = Some e ∧ matchesSel sel e = true.
Proof.
  revert k. induction l as [|e l IH]; intros k; simpl.
  - split; [intros H; by apply elem_of_nil in H|]. intros (_ & e & He & _).
    by rewrite lookup_nil in He.
  - assert (Hrest : i ∈ selectFrom sel (S k) l ↔
        (k < i)%nat ∧ ∃ e', (e :: l) !! (i - k)%nat = Some e' ∧ matchesSel sel e' = true).
    { rewrite IH. split.
      - intros (Hk & e' & He' & Hm). split; [lia|]. exists e'. split; [|done].
        replace (i - k)%nat with (S (i - S k)) by lia. done.
      - intros (Hk & e' & He' & Hm). split; [lia|]. exists e'. split; [|done].
        replace (i - k)%nat with (S (i - S k)) in He' by lia. done. }
    destruct (matchesSel sel e) eqn:Hm.
    + rewrite elem_of_cons, Hrest. split.
      * intros [->|(Hk & He')]; [|split; [lia|done]].
        split; [lia|]. exists e. by rewrite Nat.sub_diag.
      * intros (Hk & e' & He' & Hm').
        destruct (decide (i = k)) as [->|Hne]; [by left|].
        right. split; [lia|]. by exists e'.
    + rewrite Hrest. split.
      * intros (Hk & He'). split; [lia|done].
      * intros (Hk & e' & He' & Hm').
        destruct (decide (i = k)) as [->|Hne].
        -- rewrite Nat.sub_diag in He'. simpl in He'. congruence.
        -- split; [lia|]. by exists e'.
Qed.

(** [querySelectorAll] yields exactly the elements that match. *)
Lemma elem_of_querySelectorAll sel (d : DOM) i :
  i ∈ querySelectorAll sel d ↔ ∃ e, d !! i = Some e ∧ matchesSel sel e = true.
Proof.
  unfold querySelectorAll. rewrite elem_of_selectFrom, Nat.sub_0_r.
  split; [by intros [_ H]|]. intros H. split; [lia|done].
Qed.

Lemma selectFrom_first sel k (l : DOM) i rest :
  selectFrom sel k l = i :: rest →
  (k ≤ i)%nat ∧
  (∃ e, l !! (i - k)%nat = Some e ∧ matchesSel sel e = true) ∧
  ∀ j e, (j < i - k)%nat → l !! j = Some e → matchesSel sel e = false.
Proof.
  revert k. induction l as [|e l IH]; intros k; simpl; [done|].
  destruct (matchesSel sel e) eqn:Hm.
  - intros [= -> _]. split; [lia|]. rewrite Nat.sub_diag. split; [by exists e|].
    intros j e' Hj. lia.
  - intros H. destruct (IH _ H) as (Hk & (e' & He' & Hm') & Hbefore).
    split; [lia|]. split.
    + exists e'. split; [|done]. by replace (i - k)%nat with (S (i - S k)) by lia.
    + intros [|j] e'' Hj Hl; simpl in Hl; [congruence|].
      apply (Hbefore j); [lia|done].
Qed.

(** [querySelector] yields the first element that matches, if there is one. *)
Lemma querySelector_Some sel (d : DOM) i :
  querySelector sel d = Some i →
  (∃ e, d !! i = Some e ∧ matchesSel sel e = true) ∧
  ∀ j e, (j < i)%nat → d !! j = Some e → matchesSel sel e = false.
Proof.
  unfold querySelector, querySelectorAll.
  destruct (selectFrom sel 0 d) as [|i' rest] eqn:Hsel; [done|].
  intros [= ->]. destruct (selectFrom_first _ _ _ _ _ Hsel) as (_ & H1 & H2).
  rewrite Nat.sub_0_r in H1, H2. done.
Qed.

Lemma querySelector_None sel (d : DOM) :
  querySelector sel d = None ↔ ∀ i e, d !! i = Some e → matchesSel sel e = false.
Proof.
  unfold querySelector. split.
  - intros H i e He. destruct (matchesSel sel e) eqn:Hm; [|done].
    assert (Hin : i ∈ querySelectorAll sel d) by (apply elem_of_querySelectorAll; eauto).
    destruct (querySelectorAll sel d); [by apply elem_of_nil in Hin|done].
  - intros H. destruct (querySelectorAll sel d) as [|i rest] eqn:Hq; [done|].
    assert (Hin : i ∈ querySelectorAll sel d) by (rewrite Hq; left).
    apply elem_of_querySelectorAll in Hin as (e & He & Hm).
    rewrite (H _ _ He) in Hm. done.
Qed.

Lemma length_forEachElement f nodes (d : DOM) :
  length (forEachElement f nodes d) = length d.
Proof.
  unfold forEachElement. revert d. induction nodes as [|n nodes IH]; intros d; simpl;
    [done|]. by rewrite IH, length_alter.
Qed.

(** ** Capability detection *)

(** X1: [detectConnectionSpeed] never returns the empty string; it is
    "unknown" without a network information object; otherwise only the
    first object present among [connection], [mozConnection] and
    [webkitConnection] counts: its non-empty [effectiveType] is returned,
    and without one the result is "unknown" whatever the later objects
    hold. *)
Theorem X1_detectConnectionSpeed (wn : Window) :
  detectConnectionSpeed wn ≠ "" ∧
  (nav_connection wn = None → nav_mozConnection wn = None →
   nav_webkitConnection wn = None → detectConnectionSpeed wn = "unknown") ∧
  (∀ c, nav_connection wn = Some c →
     detectConnectionSpeed wn =
       match effectiveType c with
       | Some t => if decide (t = "") then "unknown" else t
       | None => "unknown"
       end) ∧
  (∀ c, nav_connection wn = None → nav_mozConnection wn = Some c →
     detectConnectionSpeed wn =
       match effectiveType c with
       | Some t => if decide (t = "") then "unknown" else t
       | None => "unknown"
       end) ∧
  (∀ c t, (nav_connection wn = Some c ∨
           (nav_connection wn = None ∧ nav_mozConnection wn = Some c) ∨
           (nav_connection wn = None ∧ nav_mozConnection wn = None ∧
            nav_webkitConnection wn = Some c)) →
     effectiveType c = Some t → t ≠ "" → detectConnectionSpeed wn = t).
Proof.
  unfold detectConnectionSpeed. repeat split.
  - destruct (nav_connection wn) as [c|]; [|destruct (nav_mozConnection wn) as [c|];
      [|destruct (nav_webkitConnection wn) as [c|]]];
      try (destruct (effectiveType c) as [t|]; [destruct (decide (t = ""))|]); done.
  - by intros -> -> ->.
  - by intros c ->.
  - by intros c -> ->.
  - intros c t [->|[[-> ->]|(-> & -> & ->)]] -> Ht; by rewrite decide_False.
Qed.

Lemma X1_witness : detectConnectionSpeed phoneWindow = "4g".
Proof.
  apply (proj2 (proj2 (proj2 (proj2 (X1_detectConnectionSpeed phoneWindow))))
           {| effectiveType := Some "4g" |} "4g").
  - right. left. split; reflexivity.
  - reflexivity.
  - discriminate.
Defined.

(** X2: [init] stores what the two detectors find and nothing else in the
    state: [isTouch] is true exactly when [ontouchstart] exists or one of
    the touch point counts is positive, [connection] is the detected
    connection, and the size, breakpoint, orientation and zoom fields stay
    as they were. *)
Theorem X2_init_detects (w : World) :
  let st := viewportState w in
  let st' := viewportState (init w) in
  st' = setTouchAndConnection (detectTouch (win w)) (detectConnectionSpeed (win w)) st ∧
  (isTouch st' = true ↔
     ontouchstart (win w) = true ∨
     (∃ n, maxTouchPoints (win w) = Some n ∧ 0 < n) ∨
     (∃ n, msMaxTouchPoints (win w) = Some n ∧ 0 < n)) ∧
  connection st' = detectConnectionSpeed (win w) ∧
  (width st', height st', breakpointsOfState st', orientation st', zoomLevel st',
   pixelRatio st', isRetina st') =
  (width st, height st, breakpointsOfState st, orientation st, zoomLevel st,
   pixelRatio st, isRetina st).
Proof.
  intros st st'. assert (Hst : st' =
    setTouchAndConnection (detectTouch (win w)) (detectConnectionSpeed (win w)) st)
    by reflexivity.
  split; [exact Hst|]. rewrite Hst. split; [|split; reflexivity].
  simpl. unfold detectTouch.
  destruct (ontouchstart (win w)); simpl; [split; auto|].
  destruct (maxTouchPoints (win w)) as [n|]; simpl.
  - destruct (Z.gtb_spec n 0); simpl.
    + split; [|done]. intros _. right. left. exists n. split; [done|lia].
    + destruct (msMaxTouchPoints (win w)) as [k|]; simpl.
      * destruct (Z.gtb_spec k 0); split; try done.
        -- intros _. right. right. exists k. split; [done|lia].
        -- intros [?|[(? & [= <-] & ?)|(? & [= <-] & ?)]]; [done|lia|lia].
      * split; [done|].
        intros [?|[(? & [= <-] & ?)|(? & ? & ?)]]; [done|lia|done].
  - destruct (msMaxTouchPoints (win w)) as [k|]; simpl.
    + destruct (Z.gtb_spec k 0); split; try done.
      * intros _. right. right. exists k. split; [done|lia].
      * intros [?|[(? & ? & ?)|(? & [= <-] & ?)]]; [done|done|lia].
    + split; [done|]. intros [?|[(? & ? & ?)|(? & ? & ?)]]; done.
Qed.

(** ** Orientation and zoom *)

Lemma onOrientationChange_changed w :
  orientationOf (innerWidth (win w)) (innerHeight (win w)) ≠ orientation (viewportState w) →
  let o := orientationOf (innerWidth (win w)) (innerHeight (win w)) in
  let w0 := onDocumentElement (setAttribute "data-orientation" o)
              (setState (setOrientation o) w) in
  onOrientationChange w =
    Normal (notified "orientationchange" (viewportState w0) w0 (length (listeners w0))).
Proof.
  intros Hne o w0. unfold onOrientationChange.
  rewrite (bool_decide_false _ Hne). cbn [negb]. unfold andThen, lift.
  apply triggerListeners_notified.
Qed.

(** X3: [onOrientationChange] does nothing while the orientation computed
    from the window is the stored one; a square window counts as
    landscape.  When it differs, only the orientation field of the state
    changes (the stored size and breakpoints stay, also when the window
    size changed), the document element gets the attribute
    [data-orientation], no adjustment pass runs, and every subscriber is
    called once with "orientationchange" and the new state. *)
Theorem X3_onOrientationChange (w : World) :
  let o := orientationOf (innerWidth (win w)) (innerHeight (win w)) in
  (innerHeight (win w) = innerWidth (win w) → o = "landscape") ∧
  (o = orientation (viewportState w) → onOrientationChange w = Normal w) ∧
  (o ≠ orientation (viewportState w) →
   ∃ w',
     onOrientationChange w = Normal w' ∧
     viewportState w' = setOrientation o (viewportState w) ∧
     width (viewportState w') = width (viewportState w) ∧
     breakpointsOfState (viewportState w') = breakpointsOfState (viewportState w) ∧
     journal w' =
       journal w ++ notifications "orientationchange" (viewportState w')
                      (length (listeners w)) ∧
     w' = notified "orientationchange" (setOrientation o (viewportState w))
            (onDocumentElement (setAttribute "data-orientation" o)
               (setState (setOrientation o) w))
            (length (listeners w))).
Proof.
  intros o. split; [|split].
  - intros Heq. subst o. unfold orientationOf. rewrite Heq.
    destruct (Z.gtb_spec (innerWidth (win w)) (innerWidth (win w))); [lia|done].
  - intros Heq. unfold onOrientationChange. fold o.
    by rewrite (bool_decide_true _ Heq).
  - intros Hne. eexists. split; [by apply onOrientationChange_changed|].
    fold o.
    set (w0 := onDocumentElement (setAttribute "data-orientation" o)
                 (setState (setOrientation o) w)).
    destruct (notified_journal "orientationchange" (viewportState w0) w0
                (length (listeners w0))) as [(_ & Hst & _) Hj]; [done|].
    rewrite Hst, Hj. repeat split.
Qed.

Lemma X3_witness :
  ∃ w', onOrientationChange turnedWorld = Normal w' ∧
        orientation (viewportState w') = "portrait" ∧
        width (viewportState w') = 1000 ∧
        journal w' = notifications "orientationchange" (viewportState w') 2.
Proof.
  destruct (proj2 (proj2 (X3_onOrientationChange turnedWorld)))
    as (w' & Hrun & Hst & Hw & _ & Hj & _).
  - vm_compute. discriminate.
  - exists w'. split; [exact Hrun|]. split; [by rewrite Hst|].
    split; [by rewrite Hw|]. rewrite Hj. reflexivity.
Defined.


Lemma onZoomChange_changed w :
  zoomOf (devicePixelRatio (win w)) ≠ zoomLevel (viewportState w) →
  let z := zoomOf (devicePixelRatio (win w)) in
  let w0 := console_log "Zoom level changed to:" (setState (setZoomLevel z) w) in
  onZoomChange w = Normal (notified "zoom" (viewportState w0) w0 (length (listeners w0))).
Proof.
  intros Hne z w0. unfold onZoomChange.
  rewrite (bool_decide_false _ Hne). cbn [negb]. unfold andThen, lift.
  apply triggerListeners_notified.
Qed.



(** What notifying leaves of the state. *)
Lemma settle_onResize_state w :
  let st' := viewportState (settle (onResize w)) in
  st' = viewportState w ∨
  st' = setViewportSize (innerWidth (win w)) (innerHeight (win w)) (viewportState w).
Proof.
  destruct (decide (innerWidth (win w) = width (viewportState w) ∧
                    innerHeight (win w) = height (viewportState w))) as [[Hw Hh]|Hne].
  - left. by rewrite (onResize_unchanged w Hw Hh).
  - right. destruct (onResize_changed_effect w) as (w' & Hrun & Hst & _).
    + destruct (decide (innerWidth (win w) = width (viewportState w))); [|by left].
      right. intros ?. by apply Hne.
    + rewrite Hrun. exact Hst.
Qed.

(** X5: none of the four event handlers writes [pixelRatio], [isRetina],
    [isTouch] or [connection], whatever the window now reports, and none
    changes the listener registry or the registered event handlers; each
    completes. *)
Theorem X5_handlers_keep_capabilities (m : BoundMethod) (w : World) :
  ∃ w', boundMethod m w = Normal w' ∧
        capabilities (viewportState w') = capabilities (viewportState w) ∧
        listeners w' = listeners w ∧ registry w' = registry w ∧
        closures w' = closures w ∧ win w' = win w.
Proof.
  assert (Hresize : ∀ w, ∃ w', onResize w = Normal w' ∧
        capabilities (viewportState w') = capabilities (viewportState w) ∧
        listeners w' = listeners w ∧ registry w' = registry w ∧
        closures w' = closures w ∧ win w' = win w).
  { intros w0. destruct (onResize_settles w0) as (w' & Hrun & (Hwin & Hl & Hr & Hc) & _).
    exists w'. split; [exact Hrun|]. repeat split; try done.
    pose proof (settle_onResize_state w0) as Hst. rewrite Hrun in Hst. simpl in Hst.
    destruct Hst as [->| ->]; reflexivity. }
  destruct m; simpl.
  - apply Hresize.
  - destruct (decide (orientationOf (innerWidth (win w)) (innerHeight (win w)) =
                      orientation (viewportState w))) as [Heq|Hne].
    + exists w. split; [|done]. unfold onOrientationChange.
      by rewrite (bool_decide_true _ Heq).
    + rewrite (onOrientationChange_changed w Hne). eexists. split; [done|].
      set (w0 := onDocumentElement _ _).
      destruct (notified_journal "orientationchange" (viewportState w0) w0
                  (length (listeners w0))) as [(Hwin & Hst & Hl & Hr & Hc) _]; [done|].
      rewrite Hst, Hl, Hr, Hc, Hwin. repeat split.
  - unfold onVisibilityChange. destruct (hidden (win w)).
    + destruct (triggerListeners_effect "hide" w) as (w1 & Hrun & (Hwin & Hst & Hl & Hr & Hc) & _).
      exists w1. split; [exact Hrun|]. rewrite Hst. repeat split; done.
    + unfold andThen. destruct (Hresize w) as (w1 & Hrun & Hcap & Hl & Hr & Hc & Hwin).
      rewrite Hrun.
      destruct (triggerListeners_effect "show" w1)
        as (w2 & Hrun2 & (Hwin2 & Hst2 & Hl2 & Hr2 & Hc2) & _).
      exists w2. split; [exact Hrun2|]. rewrite Hst2. repeat split; congruence.
  - destruct (decide (zoomOf (devicePixelRatio (win w)) = zoomLevel (viewportState w)))
      as [Heq|Hne].
    + exists w. split; [|done]. unfold onZoomChange.
      by rewrite (bool_decide_true _ Heq).
    + rewrite (onZoomChange_changed w Hne). eexists. split; [done|].
      set (w0 := console_log _ _).
      destruct (notified_journal "zoom" (viewportState w0) w0
                  (length (listeners w0))) as [(Hwin & Hst & Hl & Hr & Hc) _]; [done|].
      rewrite Hst, Hl, Hr, Hc, Hwin. repeat split.
Qed.

(** ** The viewport class of the document element *)

Lemma foldl_token_remove cs (l : list string) :
  foldl (λ l c, token_remove c l) l cs = filter (λ x, x ∉ cs) l.
Proof.
  revert l. induction cs as [|c cs IH]; intros l; simpl.
  - symmetry. induction l as [|x l IHl]; [done|].
    rewrite filter_cons_True by (apply not_elem_of_nil). by rewrite IHl.
  - rewrite IH. unfold token_remove. rewrite list_filter_filter.
    apply list_filter_iff. intros x. rewrite not_elem_of_cons. tauto.
Qed.

Lemma viewportClass_known st : viewportClass st ∈ viewportClasses.
Proof.
  unfold viewportClass, viewportClasses.
  destruct (is4K st), (isLargeDesktop st), (isSmallDesktop st), (isDesktop st),
    (isTablet st); set_solver.
Qed.

Lemma markViewport_classList st doc :
  classList (markViewport st doc) =
    filter (λ c, c ∉ viewportClasses) (classList doc) ++ [viewportClass st].
Proof.
  unfold markViewport. cbn [setAttribute withAttributes classList classList_add
    classList_remove withClassList].
  rewrite foldl_token_remove. unfold token_add.
  rewrite decide_False; [done|].
  intros Hin. apply list_elem_of_filter in Hin as [Hnot _].
  apply Hnot, viewportClass_known.
Qed.

Lemma element_eq (e e' : Element) :
  tagName e = tagName e' → classList e = classList e' → attributes e = attributes e' →
  parentIndex e = parentIndex e' → style e = style e' → e = e'.
Proof. destruct e, e'. simpl. by intros -> -> -> -> ->. Qed.

Lemma markViewport_attributes st doc :
  attributes (markViewport st doc) =
    <["data-touch" := if isTouch st then "true" else "false"]>
      (<["data-viewport" := getViewportName st]> (attributes doc)).
Proof. reflexivity. Qed.

Lemma markViewport_idem st doc : markViewport st (markViewport st doc) = markViewport st doc.
Proof.
  apply element_eq; try reflexivity.
  - rewrite !markViewport_classList. rewrite filter_app, list_filter_filter.
    rewrite (filter_cons_False _ (viewportClass st))
      by (intros H; apply H, viewportClass_known).
    rewrite filter_nil, app_nil_r. f_equal.
    apply list_filter_iff. tauto.
  - rewrite !markViewport_attributes.
    apply map_eq. intros k. rewrite !lookup_insert. repeat case_decide; done.
Qed.

Lemma updateViewportClass_dom w :
  updateViewportClass w =
    setPage (withDom (alter (markViewport (viewportState w)) 0%nat)) w.
Proof. reflexivity. Qed.

(** X6: [updateViewportClass] leaves the document element with exactly one
    of the six viewport classes, the one of the current state, after the
    classes it had besides those; it sets [data-viewport] to the viewport
    name and [data-touch] to the touch flag, keeps the other attributes
    and the inline style, touches no other element and not the state; and
    doing it twice is doing it once. *)
Theorem X6_updateViewportClass (w : World) :
  let st := viewportState w in
  let d' := dom (page (updateViewportClass w)) in
  (∀ doc, dom (page w) !! 0%nat = Some doc →
     ∃ doc', d' !! 0%nat = Some doc' ∧
       classList doc' =
         filter (λ c, c ∉ viewportClasses) (classList doc) ++ [viewportClass st] ∧
       filter (λ c, c ∈ viewportClasses) (classList doc') = [viewportClass st] ∧
       attributes doc' =
         <["data-touch" := if isTouch st then "true" else "false"]>
           (<["data-viewport" := getViewportName st]> (attributes doc)) ∧
       style doc' = style doc ∧ tagName doc' = tagName doc) ∧
  (∀ i, i ≠ 0%nat → d' !! i = dom (page w) !! i) ∧
  viewportState (updateViewportClass w) = st ∧
  updateViewportClass (updateViewportClass w) = updateViewportClass w.
Proof.
  intros st d'. subst d'. rewrite updateViewportClass_dom. fold st.
  cbn [setPage withDom page dom]. split; [|split; [|split]].
  - intros doc Hdoc. exists (markViewport st doc). split.
    + by rewrite list_lookup_alter_eq, Hdoc.
    + split; [apply markViewport_classList|]. split; [|done].
      rewrite markViewport_classList, filter_app, list_filter_filter.
      rewrite (filter_cons_True _ (viewportClass st)) by apply viewportClass_known.
      rewrite filter_nil.
      replace (filter (λ x, x ∈ viewportClasses ∧ x ∉ viewportClasses) (classList doc))
        with (@nil string); [done|].
      symmetry. induction (classList doc) as [|x l IH]; [done|].
      by rewrite filter_cons_False by tauto.
  - intros i Hi. by rewrite list_lookup_alter_ne.
  - reflexivity.
  - rewrite updateViewportClass_dom. cbn [viewportState setPage]. fold st.
    unfold setPage, withDom. cbn. f_equal. f_equal.
    rewrite list_alter_alter_eq. apply list_alter_ext; [|done].
    intros doc _. apply markViewport_idem.
Qed.

Lemma X6_witness :
  (classList <$> dom (page (updateViewportClass wideWorld)) !! 0%nat) =
    Some ["viewport-2xl"].
Proof.
  destruct (proj1 (X6_updateViewportClass wideWorld) (element "html" [] None))
    as (doc' & Hdoc' & Hcl & _).
  - reflexivity.
  - rewrite Hdoc'. simpl. rewrite Hcl. reflexivity.
Defined.

(** X7: the viewport class is "viewport-" followed by the viewport name,
    except on a 4K screen, where the name is "4k" and the class is
    "viewport-2xl". *)
Theorem X7_viewportClass_name (st : ViewportState) :
  viewportClass st =
    String.append "viewport-"
      (if decide (getViewportName st = "4k") then "2xl" else getViewportName st).
Proof.
  unfold viewportClass, getViewportName.
  destruct (is4K st), (isLargeDesktop st), (isSmallDesktop st), (isDesktop st),
    (isTablet st); reflexivity.
Qed.

(** ** The procedures of the pass, element by element *)

Lemma logoStyle_height st : logoStyle st = setStyle MaxHeight (logoHeight st).
Proof. unfold logoStyle, logoHeight. by destruct (isMobile st), (isTablet st). Qed.

Lemma tableStyle_size st : tableStyle st = setStyle FontSize (tableFontSize st).
Proof. unfold tableStyle, tableFontSize. by destruct (isMobile st). Qed.

Lemma chartStyle_height st e : chartStyle st e = setStyle MaxHeight (chartHeight st) e.
Proof. unfold chartStyle, chartHeight. by destruct (isMobile st), (isTablet st). Qed.

Lemma elem_of_logoNodes (d : DOM) i :
  i ∈ logoNodes d ↔
  querySelector (cls "ubc-logo") d = Some i ∨
  querySelector (cls "ubc-facilities-logo") d = Some i.
Proof.
  unfold logoNodes. rewrite elem_of_app.
  assert (Hopt : ∀ o : option nat, i ∈ option_list o ↔ o = Some i).
  { intros [a|]; simpl.
    - rewrite list_elem_of_singleton. split; [by intros ->|by intros [= ->]].
    - split; [intros H; by apply elem_of_nil in H|done]. }
  by rewrite !Hopt.
Qed.

(** X8: [adjustNavbarLogo] writes the maximum height of its tier (50px on
    mobile, 70px on tablet, 85px otherwise) to the first element of class
    [ubc-logo] and to the first of class [ubc-facilities-logo], and leaves
    every other element as it is, also further elements of these classes. *)
Theorem X8_adjustNavbarLogo_first_only (st : ViewportState) (d : DOM) (i : nat) :
  length (adjustNavbarLogo st d) = length d ∧
  (querySelector (cls "ubc-logo") d = Some i ∨
   querySelector (cls "ubc-facilities-logo") d = Some i →
   adjustNavbarLogo st d !! i = setStyle MaxHeight (logoHeight st) <$> d !! i) ∧
  (querySelector (cls "ubc-logo") d ≠ Some i →
   querySelector (cls "ubc-facilities-logo") d ≠ Some i →
   adjustNavbarLogo st d !! i = d !! i) ∧
  (∀ j, querySelector (cls "ubc-logo") d = Some j → (j < i)%nat →
     querySelector (cls "ubc-facilities-logo") d ≠ Some i →
     adjustNavbarLogo st d !! i = d !! i).
Proof.
  rewrite adjustNavbarLogo_loop, length_forEachElement.
  rewrite forEachElement_lookup by apply logoStyle_idem.
  rewrite logoStyle_height. split; [done|]. split; [|split].
  - intros H. rewrite decide_True by (by apply elem_of_logoNodes). done.
  - intros H1 H2. rewrite decide_False; [by destruct (d !! i)|].
    rewrite elem_of_logoNodes. tauto.
  - intros j Hj Hlt H2. rewrite decide_False; [by destruct (d !! i)|].
    rewrite elem_of_logoNodes. intros [H|H]; [|done].
    rewrite Hj in H. injection H as ->. lia.
Qed.

Lemma X8_witness :
  adjustNavbarLogo sampleState nestedDom !! 4%nat =
    setStyle MaxHeight (logoHeight sampleState) <$> nestedDom !! 4%nat ∧
  adjustNavbarLogo sampleState nestedDom !! 5%nat = nestedDom !! 5%nat.
Proof.
  destruct (X8_adjustNavbarLogo_first_only sampleState nestedDom 4) as (_ & H4 & _).
  destruct (X8_adjustNavbarLogo_first_only sampleState nestedDom 5) as (_ & _ & _ & H5).
  split.
  - apply H4. left. reflexivity.
  - apply (H5 4%nat); [reflexivity|lia|discriminate].
Defined.

(** X9: [adjustTableDisplay] writes the font size (0.85rem on mobile, 1rem
    otherwise) to exactly the elements that are the container of some
    element of class [asset-table], and to nothing else.  The container of
    a table is its closest [table-responsive] element (itself included)
    when it has one, even if an [asset-table-container] is nearer, and
    else its closest [asset-table-container]; a table with neither causes
    no write. *)
Theorem X9_adjustTableDisplay_containers (st : ViewportState) (d : DOM) (i : nat) :
  length (adjustTableDisplay st d) = length d ∧
  ((∃ table, table ∈ querySelectorAll (cls "asset-table") d ∧
             containerOf d table = Some i) →
   adjustTableDisplay st d !! i = setStyle FontSize (tableFontSize st) <$> d !! i) ∧
  ((∀ table, table ∈ querySelectorAll (cls "asset-table") d →
             containerOf d table ≠ Some i) →
   adjustTableDisplay st d !! i = d !! i) ∧
  (∀ table c, closest (cls "table-responsive") d table = Some c →
     containerOf d table = Some c) ∧
  (∀ table, closest (cls "table-responsive") d table = None →
     containerOf d table = closest (cls "asset-table-container") d table).
Proof.
  rewrite adjustTableDisplay_loop, length_forEachElement.
  rewrite forEachElement_lookup by apply tableStyle_idem.
  rewrite tableStyle_size. split; [done|]. split; [|split; [|split]].
  - intros (t & Ht & Hc). rewrite decide_True; [done|].
    unfold containerNodes. apply list_elem_of_omap. eauto.
  - intros Hnone. rewrite decide_False; [by destruct (d !! i)|].
    unfold containerNodes. intros Hin.
    apply list_elem_of_omap in Hin as (t & Ht & Hc). by apply (Hnone t).
  - intros table c H. unfold containerOf. by rewrite H.
  - intros table H. unfold containerOf. by rewrite H.
Qed.

Lemma X9_witness :
  adjustTableDisplay sampleState nestedDom !! 1%nat =
    setStyle FontSize (tableFontSize sampleState) <$> nestedDom !! 1%nat ∧
  adjustTableDisplay sampleState nestedDom !! 2%nat = nestedDom !! 2%nat.
Proof.
  split.
  - apply (X9_adjustTableDisplay_containers sampleState nestedDom 1).
    exists 3%nat. split; [|reflexivity].
    apply elem_of_querySelectorAll. eexists. split; reflexivity.
  - apply (X9_adjustTableDisplay_containers sampleState nestedDom 2).
    intros t Ht. apply elem_of_querySelectorAll in Ht as (e & He & Hm).
    destruct t as [|[|[|[|[|[|t]]]]]]; simpl in He; try discriminate;
      injection He as <-; try discriminate Hm.
Defined.

Example adjustTableDisplay_nested :
  (λ e, fontSize (style e)) <$> adjustTableDisplay sampleState nestedDom =
    [None; Some "1rem"; None; None; None; None].
Proof. vm_compute. reflexivity. Qed.

(** ** What the pass keeps and what it forgets *)

Lemma writes_keep st (b1 b2 b3 b4 : bool) e :
  let e' :=
    (if b4 then modalStyle st else id)
      ((if b3 then tableStyle st else id)
         ((if b2 then chartStyle st else id)
            ((if b1 then logoStyle st else id) e))) in
  alike e e' ∧ otherProperties (style e') = otherProperties (style e) ∧
  (b1 = false → b2 = false → b3 = false → b4 = false → e' = e) ∧
  (b2 = true → maxHeight (style e') = Some (chartHeight st)).
Proof.
  intros e'. split; [|split; [|split]].
  - subst e'. destruct b1, b2, b3, b4; unfold id;
      repeat (eapply alike_trans;
              [|first [apply alike_modalStyle|apply alike_tableStyle
                      |apply alike_chartStyle|apply alike_logoStyle]]);
      apply alike_refl.
  - subst e'. destruct e as [tg cl at_ pa [s1 s2 s3 s4 s5 s6 s7]].
    unfold logoStyle, chartStyle, tableStyle, modalStyle.
    destruct b1, b2, b3, b4, (isMobile st), (isTablet st); reflexivity.
  - by intros -> -> -> ->.
  - intros ->. subst e'. destruct e as [tg cl at_ pa [s1 s2 s3 s4 s5 s6 s7]].
    unfold logoStyle, chartStyle, tableStyle, modalStyle, chartHeight.
    destruct b1, b3, b4, (isMobile st), (isTablet st); reflexivity.
Qed.

(** X10: the adjustment pass keeps the number and order of the elements
    and, of every element, the tag, the attributes, the parent, every
    class but [modal-dialog-scrollable] and the style properties other
    than maximum height, font size and margin; an element that none of
    the four procedures reaches is left exactly as it is. *)
Theorem X10_adjustmentPass_frame (st : ViewportState) (d : DOM) :
  length (adjustmentPass st d) = length d ∧
  ∀ i e, d !! i = Some e →
    ∃ e', adjustmentPass st d !! i = Some e' ∧
      tagName e' = tagName e ∧ attributes e' = attributes e ∧
      parentIndex e' = parentIndex e ∧
      (∀ c, c ≠ "modal-dialog-scrollable" → (c ∈ classList e' ↔ c ∈ classList e)) ∧
      otherProperties (style e') = otherProperties (style e) ∧
      (i ∉ logoNodes d → i ∉ chartNodes d → i ∉ containerNodes d → i ∉ modalNodes d →
       e' = e).
Proof.
  rewrite adjustmentPass_passOn. split.
  - unfold passOn. by rewrite !length_forEachElement.
  - intros i e He. rewrite passOn_lookup, He. eexists. split; [reflexivity|].
    destruct (writes_keep st (bool_decide (i ∈ logoNodes d))
                (bool_decide (i ∈ chartNodes d)) (bool_decide (i ∈ containerNodes d))
                (bool_decide (i ∈ modalNodes d)) e)
      as ((Ht & Ha & Hp & Hc) & Ho & Hid & _).
    split; [done|]. split; [done|]. split; [done|]. split; [|split; [done|]].
    + intros c Hne. specialize (Hc c Hne). unfold token_contains in Hc. split; intros Hin.
      * apply (bool_decide_eq_true_1 (c ∈ classList e)). rewrite Hc.
        by apply bool_decide_eq_true_2.
      * eapply bool_decide_eq_true_1. rewrite <- Hc. by apply bool_decide_eq_true_2.
    + intros H1 H2 H3 H4. apply Hid; by apply bool_decide_eq_false_2.
Qed.

Lemma X10_witness :
  adjustmentPass sampleState sampleDom !! 1%nat = sampleDom !! 1%nat.
Proof.
  destruct (proj2 (X10_adjustmentPass_frame sampleState sampleDom) 1%nat
              (element "body" [] (Some 0%nat)))
    as (e' & He' & _ & _ & _ & _ & _ & Hid); [reflexivity|].
  rewrite He', Hid by compute_done. reflexivity.
Defined.

Lemma token_remove_add c l : token_remove c (token_add c l) = token_remove c l.
Proof.
  unfold token_add, token_remove. case_decide; [done|].
  rewrite filter_app, filter_cons_False by (intros H'; by apply H').
  by rewrite filter_nil, app_nil_r.
Qed.

Lemma token_remove_absent c l : c ∉ l → token_remove c l = l.
Proof.
  intros Hnot. unfold token_remove. induction l as [|x l IH]; [done|].
  apply not_elem_of_cons in Hnot as [Hne Hnot].
  rewrite filter_cons_True by done. by rewrite IH.
Qed.

(** A later pass overwrites what an earlier pass wrote. *)
Lemma writes_override st1 st2 (b1 b2 b3 b4 : bool) e :
  (isMobile st1 = false → isMobile st2 = true →
   "modal-dialog-scrollable" ∉ classList e) →
  let h st e :=
    (if b4 then modalStyle st else id)
      ((if b3 then tableStyle st else id)
         ((if b2 then chartStyle st else id)
            ((if b1 then logoStyle st else id) e))) in
  h st2 (h st1 e) = h st2 e.
Proof.
  intros Hcl. destruct e as [tg cl at_ pa [s1 s2 s3 s4 s5 s6 s7]].
  cbn [classList] in Hcl.
  unfold logoStyle, chartStyle, tableStyle, modalStyle.
  destruct b1, b2, b3, b4, (isMobile st1), (isTablet st1), (isMobile st2), (isTablet st2);
    cbv [setStyle classList_add classList_remove withClassList setProperty id foldl
         tagName classList attributes parentIndex style maxHeight fontSize minHeight
         minWidth margin animationPlayState webkitOverflowScrolling];
    rewrite ?token_add_idem, ?token_remove_idem, ?token_remove_add;
    try reflexivity;
    by rewrite (token_remove_absent _ _ (Hcl eq_refl eq_refl)).
Qed.

(** X11: the result of a pass depends on the current state only: running
    it for one state and then for another gives what the second pass alone
    gives.  This needs that, when the first state is not mobile and the
    second is, no element carries [modal-dialog-scrollable] beforehand
    (otherwise the token ends in another place of the class list). *)
Theorem X11_adjustmentPass_forgets (st1 st2 : ViewportState) (d : DOM) :
  (isMobile st1 = false → isMobile st2 = true →
   Forall (λ e, "modal-dialog-scrollable" ∉ classList e) d) →
  adjustmentPass st2 (adjustmentPass st1 d) = adjustmentPass st2 d.
Proof.
  intros Hcl.
  rewrite (adjustmentPass_passOn st2 (adjustmentPass st1 d)).
  assert (H : Forall2 alike d (adjustmentPass st1 d)).
  { rewrite adjustmentPass_passOn. apply alike_passOn. }
  destruct (nodes_alike _ _ H) as (<- & <- & <- & <-).
  rewrite !adjustmentPass_passOn.
  apply list_eq. intros i. rewrite !passOn_lookup.
  destruct (d !! i) as [e|] eqn:He; simpl; [|done]. f_equal.
  apply (writes_override st1 st2 (bool_decide (i ∈ logoNodes d))
           (bool_decide (i ∈ chartNodes d)) (bool_decide (i ∈ containerNodes d))
           (bool_decide (i ∈ modalNodes d)) e).
  intros H1 H2.
  exact (Forall_lookup_1 (λ e, "modal-dialog-scrollable" ∉ classList e) d i e
           (Hcl H1 H2) He).
Qed.

Lemma X11_witness :
  adjustmentPass (setViewportSize 500 700 sampleState)
    (adjustmentPass sampleState sampleDom) =
  adjustmentPass (setViewportSize 500 700 sampleState) sampleDom.
Proof.
  apply X11_adjustmentPass_forgets. intros _ _.
  repeat constructor; compute_done.
Defined.

(** ** Charts: the pass and the helper *)

Lemma adjustmentPass_lookup_alike st (d : DOM) i e :
  d !! i = Some e → ∃ e', adjustmentPass st d !! i = Some e' ∧ alike e e'.
Proof.
  intros He. rewrite adjustmentPass_passOn, passOn_lookup, He.
  eexists. split; [reflexivity|].
  apply (writes_keep st (bool_decide (i ∈ logoNodes d)) (bool_decide (i ∈ chartNodes d))
           (bool_decide (i ∈ containerNodes d)) (bool_decide (i ∈ modalNodes d)) e).
Qed.

Lemma makeChartsResponsive_dom st p :
  dom (settle (makeChartsResponsive st p)) =
    forEachElement (chartElementStyle st)
      (querySelectorAll [[CAttr "data-chart-type"]] (dom p)) (dom p).
Proof.
  unfold makeChartsResponsive. set (p1 := withDom _ p).
  change (forEachElement (chartElementStyle st)
            (querySelectorAll [[CAttr "data-chart-type"]] (dom p)) (dom p))
    with (dom p1).
  destruct (Chart_instances p1) as [l|]; [destruct (resizeAll l) as [l1|x l1]|].
  - cbn [echarts]. destruct (echarts p1) as [[l'|]|]; [destruct (resizeAll l')| |];
      reflexivity.
  - reflexivity.
  - destruct (echarts p1) as [[l'|]|]; [destruct (resizeAll l')| |]; reflexivity.
Qed.

(** X12: on a viewport that is neither mobile nor tablet, an element that
    matches a chart selector of the pass and carries [data-chart-type]
    gets the maximum height 70vh from the adjustment pass and 80vh from
    [makeChartsResponsive]; the helper, which runs after the pass when the
    window is resized but not at start-up, overrides the value of the
    pass. *)
Theorem X12_chart_height_pass_then_helper (st : ViewportState) (p : Page) (i : nat)
    (e : Element) :
  isMobile st = false → isTablet st = false →
  dom p !! i = Some e →
  matchesSel chartSelector e = true →
  matchesSel [[CAttr "data-chart-type"]] e = true →
  (maxHeight ∘ style <$> adjustmentPass st (dom p) !! i) = Some (Some "70vh") ∧
  (maxHeight ∘ style <$> dom (settle (makeChartsResponsive st p)) !! i) =
    Some (Some "80vh") ∧
  (maxHeight ∘ style <$>
     dom (settle (makeChartsResponsive st (withDom (adjustmentPass st) p))) !! i) =
    Some (Some "80vh").
Proof.
  intros Hm Ht He Hchart Htype.
  assert (Hhelper : ∀ d e0, d !! i = Some e0 →
    matchesSel [[CAttr "data-chart-type"]] e0 = true →
    (maxHeight ∘ style <$>
       forEachElement (chartElementStyle st)
         (querySelectorAll [[CAttr "data-chart-type"]] d) d !! i) = Some (Some "80vh")).
  { intros d e0 He0 Hm0.
    assert (Hidem : ∀ x, chartElementStyle st (chartElementStyle st x) =
                         chartElementStyle st x).
    { intros x. unfold chartElementStyle. rewrite Hm, Ht. by destruct x. }
    rewrite (forEachElement_lookup _ _ _ _ Hidem), He0.
    rewrite decide_True by (apply elem_of_querySelectorAll; eauto).
    simpl. unfold chartElementStyle. by rewrite Hm, Ht. }
  split; [|split].
  - rewrite adjustmentPass_passOn, passOn_lookup, He. simpl. do 2 f_equal.
    destruct (writes_keep st (bool_decide (i ∈ logoNodes (dom p)))
                (bool_decide (i ∈ chartNodes (dom p)))
                (bool_decide (i ∈ containerNodes (dom p)))
                (bool_decide (i ∈ modalNodes (dom p))) e) as (_ & _ & _ & Hmax).
    rewrite Hmax.
    + unfold chartHeight. by rewrite Hm, Ht.
    + apply bool_decide_eq_true_2. apply elem_of_querySelectorAll. eauto.
  - rewrite makeChartsResponsive_dom. by apply (Hhelper (dom p) e).
  - rewrite makeChartsResponsive_dom. cbn [withDom dom].
    destruct (adjustmentPass_lookup_alike st (dom p) i e He)
      as (e' & He' & _ & Hattr & _).
    apply (Hhelper _ e' He').
    unfold matchesSel, matchesCond in *. simpl in *. by rewrite <- Hattr.
Qed.

Lemma X12_witness :
  (maxHeight ∘ style <$> adjustmentPass sampleState chartDom !! 1%nat) =
    Some (Some "70vh") ∧
  (maxHeight ∘ style <$>
     dom (settle (makeChartsResponsive sampleState
                    {| dom := chartDom; Chart_instances := None; echarts := None |}))
       !! 1%nat) = Some (Some "80vh").
Proof.
  destruct (X12_chart_height_pass_then_helper sampleState
              {| dom := chartDom; Chart_instances := None; echarts := None |} 1%nat
              {| tagName := "div"; classList := ["chart-container"];
                 attributes := {["data-chart-type" := "bar"]};
                 parentIndex := Some 0%nat; style := noStyle |})
    as (H1 & H2 & _); try reflexivity.
  split; [exact H1|exact H2].
Defined.

(** ** Loops over the matches of a selector *)

Lemma forEachElement_id f nodes (d : DOM) :
  (∀ e, f e = e) → forEachElement f nodes d = d.
Proof.
  intros Hf. unfold forEachElement. revert d.
  induction nodes as [|n nodes IH]; intros d; simpl; [done|].
  by rewrite list_alter_id, IH.
Qed.

Lemma forEachElement_ext f g nodes (d : DOM) :
  (∀ e, f e = g e) → forEachElement f nodes d = forEachElement g nodes d.
Proof.
  intros Hfg. unfold forEachElement. revert d.
  induction nodes as [|n nodes IH]; intros d; simpl; [done|].
  rewrite IH. f_equal. by apply list_alter_ext.
Qed.

Lemma forEach_match_lookup sel g (d : DOM) i :
  (∀ e, g (g e) = g e) →
  forEachElement g (querySelectorAll sel d) d !! i = onMatch sel g <$> d !! i.
Proof.
  intros Hg. rewrite forEachElement_lookup by done. unfold onMatch.
  destruct (d !! i) as [e|] eqn:He; simpl; [|done]. f_equal.
  destruct (decide (i ∈ querySelectorAll sel d)) as [Hin|Hin].
  - apply elem_of_querySelectorAll in Hin as (e' & He' & Hm).
    rewrite He in He'. injection He' as <-. by rewrite Hm.
  - destruct (matchesSel sel e) eqn:Hm; [|done].
    exfalso. apply Hin, elem_of_querySelectorAll. eauto.
Qed.

(** Doing such a loop again changes nothing when the write is stable. *)
Lemma forEach_match_idem sel g (d : DOM) :
  (∀ e, g (g e) = g e) →
  (∀ e, onMatch sel g (onMatch sel g e) = onMatch sel g e) →
  let block d := forEachElement g (querySelectorAll sel d) d in
  block (block d) = block d.
Proof.
  intros Hg Hstable block. subst block. cbv beta.
  apply list_eq. intros i. rewrite !forEach_match_lookup by done.
  destruct (d !! i); simpl; [|done]. by rewrite Hstable.
Qed.

(** ** Tables as cards *)

(** X15: on a mobile state [makeTablesResponsive] leaves every element of
    class [responsive-table] with the class [card-view] (added at the end
    when it was not there), on any other state without it; it changes
    nothing else of these elements and no other element; the test before
    the [add] makes no difference; running it twice is running it once,
    and running it for a state that is not mobile undoes what a mobile run
    added. *)
Theorem X15_makeTablesResponsive (st : ViewportState) (d : DOM) :
  (∀ i, makeTablesResponsive st d !! i =
     onMatch (cls "responsive-table")
       (if isMobile st then classList_add "card-view"
        else classList_remove ["card-view"]) <$> d !! i) ∧
  (∀ i e e', d !! i = Some e → makeTablesResponsive st d !! i = Some e' →
     matchesSel (cls "responsive-table") e = true →
     token_contains "card-view" (classList e') = isMobile st) ∧
  makeTablesResponsive st (makeTablesResponsive st d) = makeTablesResponsive st d ∧
  (∀ st', isMobile st' = false →
     makeTablesResponsive st' (makeTablesResponsive st d) = makeTablesResponsive st' d).
Proof.
  set (g st := if isMobile st then classList_add "card-view"
               else classList_remove ["card-view"]).
  assert (Hg : ∀ st e, g st (g st e) = g st e).
  { intros s e. unfold g. destruct e. destruct (isMobile s);
      unfold classList_add, classList_remove, withClassList; simpl;
      by rewrite ?token_add_idem, ?token_remove_idem. }
  assert (Hsel : ∀ s e, matchesSel (cls "responsive-table") (g s e) =
                        matchesSel (cls "responsive-table") e).
  { intros s e. unfold g, matchesSel, cls. simpl. f_equal. f_equal.
    destruct (isMobile s); simpl;
      [by apply token_contains_add|by apply token_contains_remove]. }
  assert (Hrun : ∀ s d0, makeTablesResponsive s d0 =
            forEachElement (g s) (querySelectorAll (cls "responsive-table") d0) d0).
  { intros s d0. unfold makeTablesResponsive, g. destruct (isMobile s); [|done].
    apply forEachElement_ext. intros [tg cl at_ pa sty].
    unfold classList_add, withClassList, token_contains, token_add; simpl.
    destruct (decide ("card-view" ∈ cl)) as [Hin|Hin].
    - by rewrite (bool_decide_eq_true_2 _ Hin).
    - by rewrite (bool_decide_eq_false_2 _ Hin). }
  split; [|split; [|split]].
  - intros i. rewrite Hrun. apply (forEach_match_lookup _ (g st)), Hg.
  - intros i e e' He He' Hm. rewrite Hrun, forEach_match_lookup, He in He' by done.
    injection He' as <-. unfold onMatch. rewrite Hm. unfold g, token_contains.
    destruct (isMobile st); simpl.
    + apply bool_decide_eq_true_2. unfold token_add. case_decide; [done|].
      apply elem_of_app. right. by left.
    + apply bool_decide_eq_false_2. unfold token_remove.
      rewrite list_elem_of_filter. tauto.
  - rewrite !Hrun. apply (forEach_match_idem _ _ _ (Hg st)).
    intros e. unfold onMatch at 2. destruct (matchesSel _ e) eqn:Hm.
    + unfold onMatch. by rewrite Hsel, Hm, Hg.
    + unfold onMatch. by rewrite Hm.
  - intros st' Hst'. rewrite !Hrun. apply list_eq. intros i.
    rewrite !forEach_match_lookup by done.
    destruct (d !! i) as [e|]; simpl; [|done]. f_equal. unfold onMatch.
    destruct (matchesSel _ e) eqn:Hm; [|by rewrite Hm].
    rewrite Hsel, Hm. unfold g. rewrite Hst'. destruct e. destruct (isMobile st);
      unfold classList_add, classList_remove, withClassList; simpl;
      by rewrite ?token_remove_add, ?token_remove_idem.
Qed.

Lemma X15_witness :
  makeTablesResponsive sampleState
    (makeTablesResponsive (setViewportSize 400 800 sampleState) formDom) =
  makeTablesResponsive sampleState formDom.
Proof.
  apply (X15_makeTablesResponsive (setViewportSize 400 800 sampleState) formDom).
  reflexivity.
Defined.

(** ** Forms and touch targets *)

Lemma matchesSel_setStyle sel p v e : matchesSel sel (setStyle p v e) = matchesSel sel e.
Proof. reflexivity. Qed.

(** X16: without touch [enhanceFormResponsiveness] changes nothing; with
    touch it gives every [input], [textarea] and [select] element the font
    size 16px and the minimum height 44px, changes no other property and
    no other element, and running it again changes nothing. *)
Theorem X16_enhanceFormResponsiveness (st : ViewportState) (d : DOM) :
  (isTouch st = false → enhanceFormResponsiveness st d = d) ∧
  (isTouch st = true →
   ∀ i, enhanceFormResponsiveness st d !! i =
     onMatch [[CTag "input"]; [CTag "textarea"]; [CTag "select"]]
       (λ input, setStyle MinHeight "44px" (setStyle FontSize "16px" input)) <$> d !! i) ∧
  enhanceFormResponsiveness st (enhanceFormResponsiveness st d) =
    enhanceFormResponsiveness st d.
Proof.
  set (g := λ input, setStyle MinHeight "44px" (setStyle FontSize "16px" input)).
  assert (Hg : ∀ e, g (g e) = g e) by (by intros [? ? ? ? []]).
  assert (Hsel : ∀ sel e, matchesSel sel (g e) = matchesSel sel e) by done.
  unfold enhanceFormResponsiveness. destruct (isTouch st).
  - split; [done|]. split.
    + intros _ i. apply (forEach_match_lookup _ g), Hg.
    + apply (forEach_match_idem _ g _ Hg). intros e. unfold onMatch at 2.
      destruct (matchesSel _ e) eqn:Hm; unfold onMatch; [by rewrite Hsel, Hm, Hg|].
      by rewrite Hm.
  - split; [intros _; by apply forEachElement_id|]. split; [done|].
    by rewrite !forEachElement_id.
Qed.

Lemma X16_witness :
  (fontSize ∘ style <$> enhanceFormResponsiveness touchState formDom !! 2%nat) =
    Some (Some "16px") ∧
  enhanceFormResponsiveness sampleState formDom = formDom.
Proof.
  destruct (X16_enhanceFormResponsiveness touchState formDom) as (_ & Ht & _).
  destruct (X16_enhanceFormResponsiveness sampleState formDom) as (Hn & _).
  split; [rewrite Ht by reflexivity; reflexivity|apply Hn; reflexivity].
Defined.



(** ** Animations *)

(** X18: [pauseAnimations] sets the play state "paused" and
    [resumeAnimations] the play state "running" on every element whose
    class attribute contains "animation", and on nothing else; resuming
    after a pause gives what resuming alone gives, so an element that was
    paused, or had no inline play state, before the tab was hidden is
    running after it is shown again.  The subscriber of the performance
    monitor pauses on "hide", resumes on "show" and never throws. *)
Theorem X18_pause_resume (d : DOM) :
  (∀ i, pauseAnimations d !! i =
          onMatch animated (setStyle AnimationPlayState "paused") <$> d !! i) ∧
  (∀ i, resumeAnimations d !! i =
          onMatch animated (setStyle AnimationPlayState "running") <$> d !! i) ∧
  resumeAnimations (pauseAnimations d) = resumeAnimations d ∧
  pauseAnimations (resumeAnimations d) = pauseAnimations d ∧
  (∀ st p, invoke CbPerformanceMonitor "hide" st p = Normal (withDom pauseAnimations p)) ∧
  (∀ st p, invoke CbPerformanceMonitor "show" st p = Normal (withDom resumeAnimations p)) ∧
  (∀ st p, ∃ p1 p2,
     invoke CbPerformanceMonitor "hide" st p = Normal p1 ∧
     invoke CbPerformanceMonitor "show" st p1 = Normal p2 ∧
     ∀ i e, dom p !! i = Some e → matchesSel animated e = true →
       (animationPlayState ∘ style <$> dom p2 !! i) = Some (Some "running")).
Proof.
  assert (Hg : ∀ v e, setStyle AnimationPlayState v (setStyle AnimationPlayState v e) =
                      setStyle AnimationPlayState v e) by (by intros v [? ? ? ? []]).
  assert (Hover : ∀ v v' e, setStyle AnimationPlayState v (setStyle AnimationPlayState v' e) =
                            setStyle AnimationPlayState v e) by (by intros v v' [? ? ? ? []]).
  assert (Hp : ∀ d0 i, pauseAnimations d0 !! i =
            onMatch animated (setStyle AnimationPlayState "paused") <$> d0 !! i).
  { intros d0 i. apply forEach_match_lookup, Hg. }
  assert (Hr : ∀ d0 i, resumeAnimations d0 !! i =
            onMatch animated (setStyle AnimationPlayState "running") <$> d0 !! i).
  { intros d0 i. apply forEach_match_lookup, Hg. }
  assert (Hrp : ∀ d0, resumeAnimations (pauseAnimations d0) = resumeAnimations d0).
  { intros d0. apply list_eq. intros i. rewrite Hr, Hp, Hr.
    destruct (d0 !! i) as [e|]; simpl; [|done]. f_equal. unfold onMatch.
    destruct (matchesSel animated e) eqn:Hm; [|by rewrite Hm].
    rewrite matchesSel_setStyle, Hm. apply Hover. }
  split; [apply Hp|]. split; [apply Hr|]. split; [apply Hrp|]. split; [|split; [|split]].
  - apply list_eq. intros i. rewrite Hp, Hr, Hp.
    destruct (d !! i) as [e|]; simpl; [|done]. f_equal. unfold onMatch.
    destruct (matchesSel animated e) eqn:Hm; [|by rewrite Hm].
    rewrite matchesSel_setStyle, Hm. apply Hover.
  - reflexivity.
  - reflexivity.
  - intros st p. exists (withDom pauseAnimations p), (withDom resumeAnimations (withDom pauseAnimations p)).
    split; [reflexivity|]. split; [reflexivity|].
    intros i e He Hm. cbn [withDom dom]. rewrite Hrp, Hr, He. simpl.
    unfold onMatch. by rewrite Hm.
Qed.

Lemma X18_witness :
  (animationPlayState ∘ style <$>
     resumeAnimations (pauseAnimations formDom) !! 3%nat) = Some (Some "running").
Proof.
  destruct (X18_pause_resume formDom) as (_ & _ & _ & _ & _ & _ & H).
  destruct (H sampleState {| dom := formDom; Chart_instances := None; echarts := None |})
    as (p1 & p2 & H1 & H2 & Hall).
  injection H1 as <-. injection H2 as <-.
  apply (Hall 3%nat (element "div" ["fade-animation"] (Some 0%nat))); reflexivity.
Defined.

(** ** Which events the script's own subscribers react to *)

Lemma notified_own_zoom st w n :
  Forall (λ cb, ∀ p, invoke cb "zoom" st p = Normal p) (listeners w) →
  page (notified "zoom" st w n) = page w ∧ console (notified "zoom" st w n) = console w.
Proof.
  intros Hall. unfold notified.
  assert (Hpairs : Forall (λ '(_, cb), ∀ p, invoke cb "zoom" st p = Normal p)
                     (take n (imap (λ i cb, (i, cb)) (listeners w)))).
  { apply Forall_take. apply Forall_lookup. intros i [j cb] Hl.
    rewrite list_lookup_imap in Hl.
    destruct (listeners w !! i) as [cb'|] eqn:Hcb; [|done]. injection Hl as <- <-.
    by apply (Forall_lookup_1 _ _ _ _ Hall Hcb). }
  revert Hpairs. generalize (take n (imap (λ i cb, (i, cb)) (listeners w))).
  intros pairs. revert w Hall. induction pairs as [|[i cb] pairs IH]; intros w Hall Hp.
  - done.
  - cbn [foldl]. inversion Hp as [|? ? Hcb Hp']; subst.
    assert (Hstep : afterListener "zoom" st w i cb = record (ActNotify i "zoom" st) w).
    { unfold afterListener. rewrite Hcb. by destruct w. }
    rewrite Hstep. destruct (IH (record (ActNotify i "zoom" st) w)) as [H1 H2];
      [exact Hall|exact Hp'|]. by rewrite H1, H2.
Qed.

(** X14: the subscriber of the performance monitor reacts to "hide" and
    "show" only, the chart subscriber to "resize" and "orientationchange"
    only, the table and form subscribers to "resize" only; on any other
    event each returns with the page unchanged.  So when only these four
    are subscribed, a zoom notification changes neither the page nor the
    console. *)
Theorem X14_own_subscribers_filter (ev : string) (st : ViewportState) (p : Page) :
  (ev ≠ "hide" → ev ≠ "show" → invoke CbPerformanceMonitor ev st p = Normal p) ∧
  (ev ≠ "resize" → ev ≠ "orientationchange" → invoke CbCharts ev st p = Normal p) ∧
  (ev ≠ "resize" → invoke CbTables ev st p = Normal p ∧ invoke CbForms ev st p = Normal p) ∧
  (∀ w, listeners w = ownListeners →
     ∃ w', triggerListeners "zoom" st w = Normal w' ∧
           page w' = page w ∧ console w' = console w).
Proof.
  split; [|split; [|split]].
  - intros H1 H2. simpl. by rewrite !decide_False.
  - intros H1 H2. simpl. by rewrite !bool_decide_false.
  - intros H1. simpl. by rewrite !decide_False.
  - intros w Hl. eexists. split; [apply triggerListeners_notified|].
    apply notified_own_zoom. rewrite Hl. repeat constructor.
Qed.

Lemma X14_witness :
  ∃ w', triggerListeners "zoom" sampleState startedWorld = Normal w' ∧
        page w' = page startedWorld ∧ console w' = console startedWorld.
Proof.
  apply (X14_own_subscribers_filter "zoom" sampleState samplePage). reflexivity.
Defined.

(** ** Lazy loading of images *)

Lemma setupLazyLoading_dom w :
  hasIntersectionObserver (win w) && hasLoadingAttr (win w) = true →
  dom (page (setupLazyLoading w)) =
    forEachElement lazyImage
      (querySelectorAll [[CTag "img"; CAttr "data-src"]] (dom (page w))) (dom (page w)).
Proof. intros H. unfold setupLazyLoading. by rewrite H. Qed.

Lemma lazyImage_fields img :
  tagName (lazyImage img) = tagName img ∧ classList (lazyImage img) = classList img ∧
  parentIndex (lazyImage img) = parentIndex img ∧ style (lazyImage img) = style img ∧
  attributes (lazyImage img) =
    match attributes img !! "data-src" with
    | Some src =>
        if decide (src = "") then <["loading" := "lazy"]> (attributes img)
        else delete "data-src" (<["src" := src]> (<["loading" := "lazy"]> (attributes img)))
    | None => <["loading" := "lazy"]> (attributes img)
    end.
Proof.
  unfold lazyImage. cbn [setAttribute withAttributes attributes].
  rewrite lookup_insert_ne by done.
  destruct (attributes img !! "data-src") as [src|]; [destruct (decide (src = ""))|];
    repeat split.
Qed.

Lemma lazyImage_idem img : lazyImage (lazyImage img) = lazyImage img.
Proof.
  destruct (lazyImage_fields (lazyImage img)) as (Ht & Hc & Hp & Hs & Ha).
  apply element_eq; try done. rewrite Ha.
  destruct (lazyImage_fields img) as (_ & _ & _ & _ & Ha0). rewrite Ha0.
  destruct (attributes img !! "data-src") as [src|] eqn:Hsrc;
    [destruct (decide (src = "")) as [->|Hne]|].
  - rewrite lookup_insert_ne, Hsrc by done. simpl. by rewrite insert_insert_eq.
  - rewrite lookup_delete_eq.
    apply map_eq. intros k. rewrite !lookup_insert, !lookup_delete, !lookup_insert.
    repeat case_decide; congruence.
  - rewrite lookup_insert_ne, Hsrc by done. by rewrite insert_insert_eq.
Qed.

Lemma lazyImage_stable img :
  onMatch [[CTag "img"; CAttr "data-src"]] lazyImage
    (onMatch [[CTag "img"; CAttr "data-src"]] lazyImage img) =
  onMatch [[CTag "img"; CAttr "data-src"]] lazyImage img.
Proof.
  unfold onMatch. destruct (matchesSel _ img) eqn:Hm.
  - destruct (matchesSel _ (lazyImage img)); [apply lazyImage_idem|done].
  - by rewrite Hm.
Qed.

(** X19: [setupLazyLoading] does nothing unless the browser has both
    [IntersectionObserver] and the [loading] attribute of images.  If it
    has, every [img] element with a [data-src] attribute gets
    [loading="lazy"]; when its [data-src] is not empty, its [src] becomes
    that value and [data-src] is removed; no other element changes.
    Afterwards an image that still has a [data-src] has an empty one, and
    running the set-up again changes nothing. *)
Theorem X19_setupLazyLoading (w : World) :
  (hasIntersectionObserver (win w) && hasLoadingAttr (win w) = false →
   setupLazyLoading w = w) ∧
  (hasIntersectionObserver (win w) && hasLoadingAttr (win w) = true →
   let d' := dom (page (setupLazyLoading w)) in
   (∀ i, d' !! i = onMatch [[CTag "img"; CAttr "data-src"]] lazyImage <$> dom (page w) !! i) ∧
   (∀ i img src, dom (page w) !! i = Some img → tagName img = "img" →
      attributes img !! "data-src" = Some src → src ≠ "" →
      ∃ img', d' !! i = Some img' ∧
        attributes img' =
          delete "data-src" (<["src" := src]> (<["loading" := "lazy"]> (attributes img)))) ∧
   (∀ i img' src, d' !! i = Some img' → tagName img' = "img" →
      attributes img' !! "data-src" = Some src → src = "") ∧
   setupLazyLoading (setupLazyLoading w) = setupLazyLoading w).
Proof.
  split; [intros H; unfold setupLazyLoading; by rewrite H|].
  intros H d'. subst d'. rewrite (setupLazyLoading_dom w H).
  assert (Hlook : ∀ i,
    forEachElement lazyImage
      (querySelectorAll [[CTag "img"; CAttr "data-src"]] (dom (page w))) (dom (page w)) !! i =
    onMatch [[CTag "img"; CAttr "data-src"]] lazyImage <$> dom (page w) !! i).
  { intros i. apply forEach_match_lookup, lazyImage_idem. }
  split; [exact Hlook|]. split; [|split].
  - intros i img src Himg Htag Hsrc Hne. rewrite Hlook, Himg. eexists. split; [done|].
    unfold onMatch, matchesSel, matchesCond. simpl. rewrite Htag, Hsrc.
    rewrite bool_decide_true by done. rewrite bool_decide_true by eauto. simpl.
    unfold lazyImage. cbn [setAttribute withAttributes attributes].
    rewrite lookup_insert_ne, Hsrc by done. by rewrite decide_False.
  - intros i img' src Himg' Htag Hsrc. rewrite Hlook in Himg'.
    destruct (dom (page w) !! i) as [img|]; [|done]. injection Himg' as <-.
    unfold onMatch in *.
    destruct (matchesSel [[CTag "img"; CAttr "data-src"]] img) eqn:Hm.
    + destruct (lazyImage_fields img) as (_ & _ & _ & _ & Ha). rewrite Ha in Hsrc.
      destruct (attributes img !! "data-src") as [src0|] eqn:Hs0;
        [destruct (decide (src0 = "")) as [->|Hne0]|].
      * rewrite lookup_insert_ne in Hsrc by done. congruence.
      * by rewrite lookup_delete_eq in Hsrc.
      * rewrite lookup_insert_ne in Hsrc by done. congruence.
    + unfold matchesSel, matchesCond in Hm. simpl in Hm.
      rewrite (bool_decide_true _ Htag) in Hm.
      rewrite bool_decide_true in Hm by eauto. done.
  - unfold setupLazyLoading at 1.
    assert (Hwin : win (setupLazyLoading w) = win w)
      by (unfold setupLazyLoading; by rewrite H).
    rewrite Hwin, H.
    assert (Hdom : ∀ w1 w2 : World, win w1 = win w2 → viewportState w1 = viewportState w2 →
       listeners w1 = listeners w2 → console w1 = console w2 → registry w1 = registry w2 →
       closures w1 = closures w2 → journal w1 = journal w2 → page w1 = page w2 → w1 = w2).
    { intros [] []; simpl; congruence. }
    apply Hdom; try (unfold setupLazyLoading; rewrite H; reflexivity).
    assert (Hpage : ∀ p1 p2 : Page, dom p1 = dom p2 → Chart_instances p1 = Chart_instances p2 →
       echarts p1 = echarts p2 → p1 = p2) by (intros [] []; simpl; congruence).
    apply Hpage; try (unfold setupLazyLoading; rewrite H; reflexivity).
    cbn [setPage page withDom dom]. rewrite (setupLazyLoading_dom w H).
    apply (forEach_match_idem _ lazyImage _ lazyImage_idem lazyImage_stable).
Qed.

Lemma X19_witness :
  (attributes <$>
     dom (page (setupLazyLoading (setPage (withDom (λ _, imageDom)) sampleWorld))) !! 1%nat) =
    Some (delete "data-src"
            (<["src" := "/a.png"]> (<["loading" := "lazy"]> {["data-src" := "/a.png"]}))).
Proof.
  destruct (proj2 (X19_setupLazyLoading (setPage (withDom (λ _, imageDom)) sampleWorld)))
    as (_ & Himg & _); [reflexivity|].
  destruct (Himg 1%nat
              {| tagName := "img"; classList := []; attributes := {["data-src" := "/a.png"]};
                 parentIndex := Some 0%nat; style := noStyle |} "/a.png")
    as (img' & Hl & Ha).
  - reflexivity.
  - reflexivity.
  - reflexivity.
  - discriminate.
  - rewrite Hl. simpl. by rewrite Ha.
Defined.

(** ** The chart libraries *)





(** ** Debounce, whatever happens *)

Section DebounceInvariant.
Context {A St : Type}.
Variable func : A → St → St.
Variable wait : nat.

(** What time passing does to a well-formed closure: nothing but the
    clock, or the one pending timer runs. *)
Lemma elapse_cases (dt : nat) (m : Debounced A St) :
  closure_ok (closure m) →
  let m' := elapse func dt m in
  closure_ok (closure m') ∧
  clock (queue (closure m')) = (clock (queue (closure m)) + dt)%nat ∧
  ((fired m' = fired m ∧ inner m' = inner m ∧
    pending (queue (closure m')) = pending (queue (closure m))) ∨
   (∃ t, pending (queue (closure m)) = [t] ∧ (due t ≤ clock (queue (closure m)) + dt)%nat ∧
         fired m' = fired m ++ [(due t, payload t)] ∧
         inner m' = func (payload t) (inner m) ∧
         pending (queue (closure m')) = [])).
Proof.
  intros [Hall Hp]. cbv zeta. destruct Hp as [Hp|(t & Hp & Hto)].
  - rewrite (elapse_idle func dt m Hp). cbn [closure queue clock pending fired inner].
    split; [|split; [done|left; by rewrite Hp]].
    split; [by constructor|by left].
  - rewrite Hp in Hall. apply Forall_cons in Hall as [[Hid Hclk] _].
    destruct (decide (due t ≤ clock (queue (closure m)) + dt)%nat) as [Hdue|Hearly].
    + rewrite (elapse_due func dt m t Hp Hto Hclk Hdue).
      cbn [closure queue clock pending fired inner].
      split; [|split; [done|right; by exists t]].
      split; [by constructor|by left].
    + rewrite (elapse_early func dt m t Hp) by lia.
      cbn [closure queue clock pending fired inner].
      split; [|split; [done|left; by rewrite Hp]].
      split; [|right; by exists t].
      repeat constructor; cbn [queue nextId clock]; lia.
Qed.

Lemma step_ok (i : Input A St) (m : Debounced A St) :
  closure_ok (closure m) →
  let m' := step func wait m i in
  closure_ok (closure m') ∧
  fired m `prefix_of` fired m' ∧
  (length (fired m') + length (pending (queue (closure m'))) ≤
     length (fired m) + length (pending (queue (closure m)))
       + (if isCall i then 1 else 0))%nat.
Proof.
  intros Hok. cbv zeta. destruct i as [a|dt|f]; cbn [step isCall].
  - destruct (call_pending wait a m Hok) as (Hc & Hi & Hf). rewrite Hc, Hf.
    cbn [queue pending length nextId clock].
    split; [|split; [done|lia]].
    split; [|right; by eexists].
    repeat constructor; cbn [queue nextId clock tid due]; lia.
  - destruct (elapse_cases dt m Hok) as (Hok' & _ & [(Hf & _ & Hp)|(t & Hp & _ & Hf & _ & Hp')]).
    + rewrite Hf, Hp. split; [done|]. split; [done|lia].
    + rewrite Hf, Hp', Hp. split; [done|]. split; [by apply prefix_app_r|].
      rewrite length_app. simpl. lia.
  - cbn [closure fired]. split; [done|]. split; [done|lia].
Qed.

Lemma callCount_cons (i : Input A St) (l : list (Input A St)) :
  callCount (i :: l) = ((if isCall i then 1 else 0) + callCount l)%nat.
Proof. unfold callCount. simpl. by destruct (isCall i). Qed.

(** X20: whatever is done to a debounced function (calls, time passing,
    changes to the state its [func] reads, in any order), it keeps at most
    one timer pending, the one its variable [timeout] names; what it has
    run so far is never undone; and [func] has run, or is still to run,
    at most once per call. *)
Theorem X20_debounce_invariant (inputs : list (Input A St)) (m : Debounced A St) :
  closure_ok (closure m) →
  let m' := run func wait m inputs in
  closure_ok (closure m') ∧
  fired m `prefix_of` fired m' ∧
  (length (fired m') + length (pending (queue (closure m'))) ≤
     length (fired m) + length (pending (queue (closure m))) + callCount inputs)%nat.
Proof.
  cbv zeta. revert m. induction inputs as [|i inputs IH]; intros m Hok.
  - unfold run, callCount. simpl. split; [done|]. split; [done|lia].
  - unfold run. cbn [foldl]. fold (run func wait (step func wait m i) inputs).
    destruct (step_ok i m Hok) as (Hok1 & Hpre1 & Hlen1).
    destruct (IH _ Hok1) as (Hok2 & Hpre2 & Hlen2).
    split; [done|]. split; [by etrans|].
    rewrite callCount_cons. lia.
Qed.

(** X21: calls that are each followed by a pause of at least [wait] are
    all served: [func] runs once per call, in the order of the calls, with
    the arguments of that call, [wait] after it; nothing is left pending
    after the last pause.  A timer that was pending before the first call
    is cancelled by it. *)
Theorem X21_debounce_spaced_calls (calls : list (A * nat)) (m : Debounced A St) :
  closure_ok (closure m) →
  Forall (λ c, (wait ≤ c.2)%nat) calls →
  calls ≠ [] →
  let m' := run func wait m (spaced calls) in
  fired m' = fired m ++ firings wait (clock (queue (closure m))) calls ∧
  inner m' = foldl (λ s c, func c.1 s) (inner m) calls ∧
  pending (queue (closure m')) = [].
Proof.
  cbv zeta. intros Hok Hall Hne.
  assert (Hgen : ∀ calls m, closure_ok (closure m) → Forall (λ c, (wait ≤ c.2)%nat) calls →
            let m' := run func wait m (spaced calls) in
            closure_ok (closure m') ∧
            fired m' = fired m ++ firings wait (clock (queue (closure m))) calls ∧
            inner m' = foldl (λ s c, func c.1 s) (inner m) calls ∧
            (calls ≠ [] → pending (queue (closure m')) = [])).
  { clear. intros calls. induction calls as [|[a dt] calls IH]; intros m Hok Hall; cbv zeta.
    - unfold run, spaced. simpl. rewrite app_nil_r. done.
    - apply Forall_cons in Hall as [Hdt Hall]. cbn [snd] in Hdt.
      unfold spaced. cbn [flat_map]. fold (@spaced A St calls).
      change ([Call a; Elapse dt] ++ spaced calls)
        with ([Call a] ++ [Elapse dt] ++ @spaced A St calls).
      rewrite !run_app.
      destruct (call_pending wait a m Hok) as (Hc & Hi & Hf).
      set (m0 := run func wait m [Call a]) in *.
      assert (Hm0 : m0 = call wait a m) by reflexivity.
      set (t := {| tid := nextId (queue (closure m));
                   due := (clock (queue (closure m)) + wait)%nat; payload := a |}) in *.
      assert (Hp0 : pending (queue (closure m0)) = [t]) by (rewrite Hm0, Hc; reflexivity).
      assert (Hto0 : timeout (closure m0) = Some (tid t)) by (rewrite Hm0, Hc; reflexivity).
      assert (Hclk0 : clock (queue (closure m0)) = clock (queue (closure m)))
        by (rewrite Hm0, Hc; reflexivity).
      assert (Hid0 : nextId (queue (closure m0)) = S (nextId (queue (closure m))))
        by (rewrite Hm0, Hc; reflexivity).
      set (m1 := run func wait m0 [Elapse dt]).
      assert (Hm1 : m1 = elapse func dt m0) by reflexivity.
      rewrite (elapse_due func dt m0 t Hp0 Hto0) in Hm1
        by (rewrite Hclk0; subst t; cbn [due]; lia).
      assert (Hok1 : closure_ok (closure m1)).
      { rewrite Hm1. cbn [closure]. split; [by constructor|by left]. }
      destruct (IH m1 Hok1 Hall) as (Hok2 & Hf2 & Hi2 & Hp2).
      split; [done|]. rewrite Hf2, Hi2.
      assert (Hclk1 : clock (queue (closure m1)) = (clock (queue (closure m)) + dt)%nat)
        by (rewrite Hm1; cbn [closure queue clock]; by rewrite Hclk0).
      assert (Hfired1 : fired m1 = fired m ++ [((clock (queue (closure m)) + wait)%nat, a)])
        by (rewrite Hm1; cbn [fired]; by rewrite Hm0, Hf).
      assert (Hinner1 : inner m1 = func a (inner m))
        by (rewrite Hm1; cbn [inner]; by rewrite Hm0, Hi).
      rewrite Hclk1, Hfired1, Hinner1. cbn [firings foldl fst].
      rewrite <- app_assoc. split; [done|]. split; [done|].
      intros _. destruct calls as [|c calls'].
      + change (pending (queue (closure m1)) = []). by rewrite Hm1.
      + by apply Hp2. }
  destruct (Hgen calls m Hok Hall) as (_ & Hf & Hi & Hp).
  split; [done|]. split; [done|]. by apply Hp.
Qed.

End DebounceInvariant.

Lemma X20_witness :
  let m' := run collect 250 sampleDebounced
              [Call 1%nat; Elapse 100; Call 2%nat; Outside (λ s, s); Elapse 300; Elapse 300] in
  closure_ok (closure m') ∧
  fired sampleDebounced `prefix_of` fired m' ∧
  (length (fired m') + length (pending (queue (closure m'))) ≤ 2)%nat.
Proof.
  apply (X20_debounce_invariant collect 250
           [Call 1%nat; Elapse 100; Call 2%nat; Outside (λ s, s); Elapse 300; Elapse 300]
           sampleDebounced).
  split; [constructor|left; reflexivity].
Defined.

Lemma X21_witness :
  let m' := run collect 250 sampleDebounced (spaced [(1%nat, 250%nat); (2%nat, 400%nat)]) in
  fired m' = [(250%nat, 1%nat); (500%nat, 2%nat)] ∧
  inner m' = [1%nat; 2%nat] ∧
  pending (queue (closure m')) = [].
Proof.
  apply (X21_debounce_spaced_calls collect 250 [(1%nat, 250%nat); (2%nat, 400%nat)]
           sampleDebounced).
  - split; [constructor|left; reflexivity].
  - repeat constructor; simpl; lia.
  - discriminate.
Defined.
